(** * sang-stats: log reconciliation and play statistics

    A shallow embedding of [sang-stats.py]: the three log passes of [main]
    (nginx access log, heartbeat log [np.log], track-event log [track.log]),
    the GeoIP resolver [lookup_countries] and the construction of the
    [stats] report, followed by the properties of the specification that
    were checked against it.

    Conventions of the embedding.
    - A Python [str] is a [string]; its characters are the code points
      below 256.
    - A Python [int] is a [Z], a Python [float] is a primitive binary64
      [float].
    - A [defaultdict(int)] is an association list in insertion order
      (the order Python dictionaries iterate in); a [set] whose iteration
      order is never observed is a [gset].
    - What the script takes from outside (the files, the clock, the
      [user_agents] parser, the ip-api.com service, the iteration order
      of a [set] of strings) is an explicit argument of [main]. *)

From Stdlib Require Import ZArith Floats Ascii String DecimalString Sorted.
From stdpp Require Import base gmap sets list strings.

#[local] Set Warnings "-inexact-float".

Local Open Scope string_scope.
Local Open Scope list_scope.
Local Open Scope Z_scope.

(** ** Python string operations used by the script *)

Module PyStr.

Definition code (c : ascii) : nat := nat_of_ascii c.

Definition is_digit (c : ascii) : bool :=
  (48 <=? code c)%nat && (code c <=? 57)%nat.

Definition digit_val (c : ascii) : Z := Z.of_nat (code c) - 48.

(** [str.isspace] on one character, for the code points below 256. *)
Definition is_space (c : ascii) : bool :=
  let n := code c in
  ((9 <=? n)%nat && (n <=? 13)%nat) || ((28 <=? n)%nat && (n <=? 32)%nat)
  || (n =? 133)%nat || (n =? 160)%nat.

Definition is_empty (s : string) : bool :=
  match s with EmptyString => true | _ => false end.

Fixpoint lstrip (s : string) : string :=
  match s with
  | String c s' => if is_space c then lstrip s' else s
  | EmptyString => EmptyString
  end.

Fixpoint rstrip (s : string) : string :=
  match s with
  | String c s' =>
      let r := rstrip s' in
      if is_empty r && is_space c then EmptyString else String c r
  | EmptyString => EmptyString
  end.

(** [s.strip()] *)
Definition strip (s : string) : string := rstrip (lstrip s).

(** [s.split(sep)] for a one-character separator. *)
Fixpoint split (sep : ascii) (s : string) : list string :=
  match s with
  | EmptyString => [EmptyString]
  | String c s' =>
      if Ascii.eqb c sep then EmptyString :: split sep s'
      else match split sep s' with
           | w :: ws => String c w :: ws
           | [] => [String c EmptyString]
           end
  end.

(** [s[:n]] and [s[i:j]] for non-negative constant bounds. *)
Definition take (n : nat) (s : string) : string := substring 0 n s.
Definition slice (i j : nat) (s : string) : string := substring i (j - i) s.

Fixpoint drop (n : nat) (s : string) : string :=
  match n, s with
  | O, _ => s
  | S n', String _ s' => drop n' s'
  | S _, EmptyString => EmptyString
  end.

(** [s.startswith(p)] *)
Definition startswith (p s : string) : bool := String.prefix p s.

(** [sub in s] *)
Fixpoint contains (sub s : string) : bool :=
  String.prefix sub s ||
  match s with
  | String _ s' => contains sub s'
  | EmptyString => false
  end.

(** [s.find(c)] for a one-character needle; [None] stands for [-1]. *)
Fixpoint find (c : ascii) (s : string) : option nat :=
  match s with
  | EmptyString => None
  | String d s' =>
      if Ascii.eqb d c then Some O
      else match find c s' with Some i => Some (S i) | None => None end
  end.

(** [s.replace(old, new)] for a non-empty [old]: occurrences are
    replaced from the left and do not overlap.  [skip] counts the
    characters of the occurrence just replaced that are still to be
    passed over. *)
Fixpoint replace_from (old new : string) (skip : nat) (s : string) : string :=
  match s with
  | EmptyString => EmptyString
  | String c s' =>
      match skip with
      | S k => replace_from old new k s'
      | O =>
          if String.prefix old s
          then new +:+ replace_from old new (String.length old - 1) s'
          else String c (replace_from old new 0 s')
      end
  end.

Definition replace (old new s : string) : string := replace_from old new 0 s.

Definition lower_char (c : ascii) : ascii :=
  if (65 <=? code c)%nat && (code c <=? 90)%nat
  then ascii_of_nat (code c + 32) else c.

Fixpoint lower (s : string) : string :=
  match s with
  | EmptyString => EmptyString
  | String c s' => String (lower_char c) (lower s')
  end.

(** Exactly [n] decimal digits at the head of [s]: their value and the
    rest of the string. *)
Fixpoint digits (n : nat) (acc : Z) (s : string) : option (Z * string) :=
  match n with
  | O => Some (acc, s)
  | S n' =>
      match s with
      | String c s' =>
          if is_digit c then digits n' (10 * acc + digit_val c) s' else None
      | EmptyString => None
      end
  end.

(** A string that consists of exactly [n] decimal digits. *)
Definition number (n : nat) (s : string) : option Z :=
  match digits n 0 s with
  | Some (v, EmptyString) => Some v
  | _ => None
  end.

(** The digit part of an integer literal: decimal digits, single
    underscores allowed between two digits. [seen] tells whether the
    previous character was a digit. *)
Fixpoint int_digits (acc : Z) (seen : bool) (s : string) : option Z :=
  match s with
  | EmptyString => if seen then Some acc else None
  | String c s' =>
      if is_digit c then int_digits (10 * acc + digit_val c) true s'
      else if Ascii.eqb c "_" && seen then
        match s' with
        | String d _ => if is_digit d then int_digits acc false s' else None
        | EmptyString => None
        end
      else None
  end.

(** The white space that [int] and [float] accept around a literal. *)
Definition is_num_space (c : ascii) : bool :=
  let n := code c in
  ((9 <=? n)%nat && (n <=? 13)%nat) || (n =? 32)%nat
  || (n =? 133)%nat || (n =? 160)%nat.

Fixpoint num_lstrip (s : string) : string :=
  match s with
  | String c s' => if is_num_space c then num_lstrip s' else s
  | EmptyString => EmptyString
  end.

Fixpoint num_rstrip (s : string) : string :=
  match s with
  | String c s' =>
      let r := num_rstrip s' in
      if is_empty r && is_num_space c then EmptyString else String c r
  | EmptyString => EmptyString
  end.

Definition num_strip (s : string) : string := num_rstrip (num_lstrip s).

(** [int(s)]: [None] when Python raises [ValueError]. *)
Definition int (s : string) : option Z :=
  match num_strip s with
  | String "-" r => option_map Z.opp (int_digits 0 false r)
  | String "+" r => int_digits 0 false r
  | t => int_digits 0 false t
  end.

Definition digit_char (d : Z) : ascii := ascii_of_nat (Z.to_nat (d mod 10) + 48).

(** [n] printed on exactly [w] digits, zero padded ([%0wd] for
    [0 <= n < 10^w]). *)
Fixpoint zfill (w : nat) (n : Z) : string :=
  match w with
  | O => EmptyString
  | S w' => zfill w' (n / 10) +:+ String (digit_char n) EmptyString
  end.

(** [str(n)] for a natural number. *)
Definition of_nat (n : nat) : string :=
  NilZero.string_of_uint (Nat.to_uint n).

End PyStr.

(** ** Naive [datetime] values and the two timestamp parsers *)

Module DateTime.

Record datetime : Type := mk
  { year : Z; month : Z; day : Z;
    hour : Z; minute : Z; second : Z; microsecond : Z }.

Definition eqb (a b : datetime) : bool :=
  (year a =? year b) && (month a =? month b) && (day a =? day b)
  && (hour a =? hour b) && (minute a =? minute b) && (second a =? second b)
  && (microsecond a =? microsecond b).

Definition is_leap (y : Z) : bool :=
  (y mod 4 =? 0) && (negb (y mod 100 =? 0) || (y mod 400 =? 0)).

Definition days_in_month (y m : Z) : Z :=
  if m =? 2 then (if is_leap y then 29 else 28)
  else if (m =? 4) || (m =? 6) || (m =? 9) || (m =? 11) then 30
  else 31.

Definition days_before_year (y : Z) : Z :=
  let p := y - 1 in p * 365 + p / 4 - p / 100 + p / 400.

Definition days_before_month (y m : Z) : Z :=
  fold_right Z.add 0
    (map (days_in_month y) (map Z.of_nat (seq 1 (Z.to_nat (m - 1))))).

Definition toordinal (d : datetime) : Z :=
  days_before_year (year d) + days_before_month (year d) (month d) + day d.

(** The constructor [datetime(y, m, d, H, M, S, us)]: [None] where
    Python raises [ValueError]. *)
Definition make (y m d H M S us : Z) : option datetime :=
  if (1 <=? y) && (y <=? 9999) && (1 <=? m) && (m <=? 12)
     && (1 <=? d) && (d <=? days_in_month y m)
     && (0 <=? H) && (H <=? 23) && (0 <=? M) && (M <=? 59)
     && (0 <=? S) && (S <=? 59) && (0 <=? us) && (us <=? 999999)
  then Some (mk y m d H M S us)
  else None.

(** [(a - b)] in microseconds.  [(a - b).total_seconds()] is this
    integer divided by [10**6] and rounded to a float; since the
    rounding is monotone and 30 is a float, [total_seconds() > 30]
    holds exactly when the integer exceeds [30 * 10**6]. *)
Definition sub_us (a b : datetime) : Z :=
  ((toordinal a - toordinal b) * 86400
   + ((hour a * 3600 + minute a * 60 + second a)
      - (hour b * 3600 + minute b * 60 + second b))) * 1000000
  + (microsecond a - microsecond b).

Definition total_seconds_gt (a b : datetime) (n : Z) : bool :=
  n * 1000000 <? sub_us a b.

(** [d.isoformat()] *)
Definition isoformat (d : datetime) : string :=
  PyStr.zfill 4 (year d) +:+ "-" +:+ PyStr.zfill 2 (month d) +:+ "-"
  +:+ PyStr.zfill 2 (day d) +:+ "T" +:+ PyStr.zfill 2 (hour d) +:+ ":"
  +:+ PyStr.zfill 2 (minute d) +:+ ":" +:+ PyStr.zfill 2 (second d)
  +:+ (if microsecond d =? 0 then "" else "." +:+ PyStr.zfill 6 (microsecond d)).

(** *** [datetime.strptime(s, '%d/%b/%Y:%H:%M:%S')]

    [strptime] turns the format into a regular expression, one group
    per directive, and requires it to match the whole string.  Every
    group here is followed by a literal that it cannot contain, so each
    group is the text up to that literal and has to match one of the
    alternatives of its directive. *)

(** The text before the first [c] and the text after it. *)
Fixpoint cut (c : ascii) (s : string) : option (string * string) :=
  match s with
  | EmptyString => None
  | String d s' =>
      if Ascii.eqb d c then Some (EmptyString, s')
      else match cut c s' with
           | Some (a, b) => Some (String d a, b)
           | None => None
           end
  end.

Definition in_range (lo hi : ascii) (c : ascii) : bool :=
  (PyStr.code lo <=? PyStr.code c)%nat && (PyStr.code c <=? PyStr.code hi)%nat.

Definition two_digits (a b : ascii) : Z := 10 * PyStr.digit_val a + PyStr.digit_val b.

(** [%d]: [3[0-1]|[1-2]\d|0[1-9]|[1-9]| [1-9]] *)
Definition directive_d (s : string) : option Z :=
  match s with
  | String a (String b EmptyString) =>
      if (Ascii.eqb a "3" && in_range "0" "1" b)
         || (in_range "1" "2" a && PyStr.is_digit b)
         || (Ascii.eqb a "0" && in_range "1" "9" b)
      then Some (two_digits a b)
      else if Ascii.eqb a " " && in_range "1" "9" b then Some (PyStr.digit_val b)
      else None
  | String a EmptyString =>
      if in_range "1" "9" a then Some (PyStr.digit_val a) else None
  | _ => None
  end.

Definition month_abbr : list string :=
  ["jan"; "feb"; "mar"; "apr"; "may"; "jun";
   "jul"; "aug"; "sep"; "oct"; "nov"; "dec"].

Fixpoint index_of (x : string) (l : list string) (i : Z) : option Z :=
  match l with
  | [] => None
  | y :: l' => if String.eqb x y then Some i else index_of x l' (i + 1)
  end.

(** [%b], matched ignoring case (month names of the C locale). *)
Definition directive_b (s : string) : option Z :=
  index_of (PyStr.lower s) month_abbr 1.

(** [%Y]: [\d\d\d\d] *)
Definition directive_Y (s : string) : option Z := PyStr.number 4 s.

(** [%H]: [2[0-3]|[0-1]\d|\d] *)
Definition directive_H (s : string) : option Z :=
  match s with
  | String a (String b EmptyString) =>
      if (Ascii.eqb a "2" && in_range "0" "3" b)
         || (in_range "0" "1" a && PyStr.is_digit b)
      then Some (two_digits a b) else None
  | String a EmptyString =>
      if PyStr.is_digit a then Some (PyStr.digit_val a) else None
  | _ => None
  end.

(** [%M]: [[0-5]\d|\d] *)
Definition directive_M (s : string) : option Z :=
  match s with
  | String a (String b EmptyString) =>
      if in_range "0" "5" a && PyStr.is_digit b
      then Some (two_digits a b) else None
  | String a EmptyString =>
      if PyStr.is_digit a then Some (PyStr.digit_val a) else None
  | _ => None
  end.

(** [%S]: [6[0-1]|[0-5]\d|\d] *)
Definition directive_S (s : string) : option Z :=
  match s with
  | String a (String b EmptyString) =>
      if (Ascii.eqb a "6" && in_range "0" "1" b)
         || (in_range "0" "5" a && PyStr.is_digit b)
      then Some (two_digits a b) else None
  | String a EmptyString =>
      if PyStr.is_digit a then Some (PyStr.digit_val a) else None
  | _ => None
  end.

Definition strptime (s : string) : option datetime :=
  '(sd, r1) ← cut "/" s;
  d ← directive_d sd;
  '(sb, r2) ← cut "/" r1;
  m ← directive_b sb;
  '(sy, r3) ← cut ":" r2;
  y ← directive_Y sy;
  '(sH, r4) ← cut ":" r3;
  H ← directive_H sH;
  '(sM, sS) ← cut ":" r4;
  M ← directive_M sM;
  sec ← directive_S sS;
  make y m d H M sec 0.

(** *** [datetime.fromisoformat(s)]

    The format that [isoformat] writes,
    [YYYY-MM-DD[*HH[:MM[:SS[.fff[fff]]]][+HH:MM[:SS[.ffffff]]]]], which
    is what [fromisoformat] reads before Python 3.11 (the reason why
    the script rewrites a trailing [Z]); the further ISO 8601 forms of
    later versions are not part of this model.  The result is the naive
    date and time together with the UTC offset in microseconds, when
    there is one. *)

Definition hh_mm_ss_ff (t : string) : option (Z * Z * Z * Z) :=
  '(h, r1) ← PyStr.digits 2 0 t;
  match r1 with
  | EmptyString => Some (h, 0, 0, 0)
  | String ":" r1' =>
      '(m, r2) ← PyStr.digits 2 0 r1';
      match r2 with
      | EmptyString => Some (h, m, 0, 0)
      | String ":" r2' =>
          '(s, r3) ← PyStr.digits 2 0 r2';
          match r3 with
          | EmptyString => Some (h, m, s, 0)
          | String "." f =>
              if (String.length f =? 3)%nat
              then us ← PyStr.number 3 f; Some (h, m, s, us * 1000)
              else if (String.length f =? 6)%nat
              then us ← PyStr.number 6 f; Some (h, m, s, us)
              else None
          | _ => None
          end
      | _ => None
      end
  | _ => None
  end.

(** The time text before the first [+] or [-], and the sign and text
    of the offset after it. *)
Fixpoint split_offset (t : string) : string * option (bool * string) :=
  match t with
  | EmptyString => (EmptyString, None)
  | String c t' =>
      if Ascii.eqb c "+" then (EmptyString, Some (false, t'))
      else if Ascii.eqb c "-" then (EmptyString, Some (true, t'))
      else let '(a, o) := split_offset t' in (String c a, o)
  end.

(** The offset [HH:MM], [HH:MM:SS] or [HH:MM:SS.ffffff], strictly
    between minus and plus 24 hours. *)
Definition utcoffset (neg : bool) (z : string) : option Z :=
  let n := String.length z in
  if (n =? 5)%nat || (n =? 8)%nat || (n =? 15)%nat then
    '(h, m, s, us) ← hh_mm_ss_ff z;
    let off := (h * 3600 + m * 60 + s) * 1000000 + us in
    if off <? 86400 * 1000000 then Some (if neg then - off else off) else None
  else None.

Definition isoformat_time (t : string) : option (Z * Z * Z * Z * option Z) :=
  let '(ts, o) := split_offset t in
  '(h, m, s, us) ← hh_mm_ss_ff ts;
  match o with
  | None => Some (h, m, s, us, None)
  | Some (neg, z) => off ← utcoffset neg z; Some (h, m, s, us, Some off)
  end.

Definition fromisoformat (s : string) : option (datetime * option Z) :=
  '(y, r1) ← PyStr.digits 4 0 s;
  match r1 with
  | String "-" r1' =>
      '(m, r2) ← PyStr.digits 2 0 r1';
      match r2 with
      | String "-" r2' =>
          '(d, r3) ← PyStr.digits 2 0 r2';
          match r3 with
          | EmptyString => dt ← make y m d 0 0 0 0; Some (dt, None)
          | String _ t =>
              '(hh, mi, ss, us, tz) ← isoformat_time t;
              dt ← make y m d hh mi ss us;
              Some (dt, tz)
          end
      | _ => None
      end
  | _ => None
  end.

(** [ts.replace(tzinfo=None)]: the offset is dropped, date and time are
    kept as they are. *)
Definition drop_tzinfo (ts : datetime * option Z) : datetime := fst ts.

End DateTime.

(** ** Python floats: [float(s)], true division and [round(x, 1)] *)

Module PyFloat.

(** The float nearest to the integer [n]. *)
Definition of_Z (n : Z) : float := SF2Prim (binary_normalize prec emax n 0 false).

(** The float nearest to [a / b], for [b > 0]: Python's [a / b] on two
    integers. *)
Definition div_Z (a b : Z) : float :=
  match a with
  | Z0 => 0%float
  | Zpos p =>
      SF2Prim (SFdiv prec emax (S754_finite false p 0)
                 (S754_finite false (Z.to_pos b) 0))
  | Zneg p =>
      SF2Prim (SFdiv prec emax (S754_finite true p 0)
                 (S754_finite false (Z.to_pos b) 0))
  end.

(** [a / b] rounded to the nearest integer, ties to even ([b > 0]). *)
Definition div_half_even (a b : Z) : Z :=
  let q := a / b in
  let r := a mod b in
  if 2 * r <? b then q
  else if b <? 2 * r then q + 1
  else if Z.even q then q else q + 1.

(** [round(x, 1)]: the exact value of [x] is rounded to one decimal,
    ties to even, and the float nearest to that decimal is returned. *)
Definition round1 (x : float) : float :=
  match Prim2SF x with
  | S754_finite sg m e =>
      if 0 <=? e then x
      else
        let n := div_half_even (Zpos m * 10) (2 ^ (- e)) in
        if n =? 0 then (if sg then (-0)%float else 0%float)
        else div_Z (if sg then - n else n) 10
  | _ => x
  end.

(** Underscores of a numeric literal: each one stands between two
    digits.  They are removed before the literal is read. *)
Fixpoint drop_underscores (prev_digit : bool) (s : string) : option string :=
  match s with
  | EmptyString => Some EmptyString
  | String c s' =>
      if Ascii.eqb c "_" then
        match s' with
        | String d _ =>
            if prev_digit && PyStr.is_digit d then drop_underscores false s'
            else None
        | EmptyString => None
        end
      else option_map (String c) (drop_underscores (PyStr.is_digit c) s')
  end.

(** The longest run of decimal digits at the head of [s]: its value,
    its length and the rest of the string. *)
Fixpoint digit_run (acc : Z) (len : nat) (s : string) : Z * nat * string :=
  match s with
  | String c s' =>
      if PyStr.is_digit c
      then digit_run (10 * acc + PyStr.digit_val c) (S len) s'
      else (acc, len, s)
  | EmptyString => (acc, len, s)
  end.

(** The exponent part [e[+-]digits], or nothing. *)
Definition exponent (s : string) : option Z :=
  match s with
  | EmptyString => Some 0
  | String c r =>
      if Ascii.eqb c "e" || Ascii.eqb c "E" then
        let '(neg, r') :=
          match r with
          | String "-" t => (true, t)
          | String "+" t => (false, t)
          | _ => (false, r)
          end in
        match digit_run 0 0 r' with
        | (v, S _, EmptyString) => Some (if neg then - v else v)
        | _ => None
        end
      else None
  end.

(** The float nearest to [m * 10^e], for [m >= 0]. *)
Definition of_decimal (m e : Z) : float :=
  if m =? 0 then 0%float
  else if 0 <=? e then of_Z (m * 10 ^ e)
  else div_Z m (10 ^ (- e)).

(** An unsigned literal: [inf], [infinity], [nan] in any case, or
    [digits[.digits][e[+-]digits]] with a digit before or after the
    point. *)
Definition unsigned (s : string) : option float :=
  let l := PyStr.lower s in
  if String.eqb l "inf" || String.eqb l "infinity" then Some infinity
  else if String.eqb l "nan" then Some nan
  else
    let '(ip, ni, r1) := digit_run 0 0 s in
    let '(m, nf, r2) :=
      match r1 with
      | String "." t => let '(v, n, r) := digit_run ip 0 t in (v, n, r)
      | _ => (ip, O, r1)
      end in
    if (ni + nf =? 0)%nat then None
    else option_map (fun e => of_decimal m (e - Z.of_nat nf)) (exponent r2).

(** [0 < x < 600] and the like: Python's chained comparison. *)
Definition between (lo x hi : float) : bool :=
  PrimFloat.ltb lo x && PrimFloat.ltb x hi.

(** [float(s)]: [None] when Python raises [ValueError]. *)
Definition float (s : string) : option float :=
  t ← drop_underscores false (PyStr.num_strip s);
  match t with
  | String "-" r => option_map PrimFloat.opp (unsigned r)
  | String "+" r => unsigned r
  | _ => unsigned t
  end.

End PyFloat.

(** ** Constants of the script *)

(** [VALID_SONGS]: the white list for track events. *)
Definition VALID_SONGS : list string :=
  ["bare-en-far"; "kristoffer"; "kokosnoed"; "mine-drenge";
   "fars-kamp"; "stop-brian"; "brormand";
   "en-fars-kamp"; "stop-saa-brian"; "som-en-kokosnoed"].

(** The alternatives of [BOT_PATTERNS], a case-insensitive search. *)
Definition BOT_PATTERNS : list string :=
  ["bot"; "crawl"; "spider"; "slurp"; "mediapartners"; "adsbot";
   "bingpreview"; "googlebot"; "yandex"; "baidu"; "semrush"; "ahrefs";
   "mj12bot"; "dotbot"; "searchbot"; "claudebot"].

(** [BOT_PATTERNS.search(ua)] *)
Definition bot_search (ua : string) : bool :=
  existsb (fun tok => PyStr.contains tok (PyStr.lower ua)) BOT_PATTERNS.

(** [NP_SONG_MAP]: short heartbeat identifiers to audio file names. *)
Definition NP_SONG_MAP : list (string * string) :=
  [("fars-kamp", "en-fars-kamp");
   ("stop-brian", "stop-saa-brian");
   ("kokosnoed", "som-en-kokosnoed")].

(** [NP_SONG_MAP.get(song, song)] *)
Definition np_song (song : string) : string :=
  match find (fun kv => String.eqb (fst kv) song) NP_SONG_MAP with
  | Some kv => snd kv
  | None => song
  end.

(** The groups of a line that [LOG_PATTERN] matches; [status] and
    [bytes] already through [int]. *)
Record LogMatch : Type := mkLogMatch
  { m_ip : string; m_time : string; m_method : string; m_path : string;
    m_status : Z; m_bytes : Z; m_referer : string; m_ua : string }.

(** ** [parse_time] and [parse_song_name] *)

Definition parse_time (time_str : string) : string :=
  match DateTime.strptime (hd EmptyString (PyStr.split " " time_str)) with
  | Some dt => DateTime.isoformat dt +:+ "Z"
  | None => time_str
  end.

Definition newline : ascii := ascii_of_nat 10.

(** The longest [p] without a newline such that [s] starts with
    [p +:+ suffix]. *)
Fixpoint longest_before (suffix s : string) : option string :=
  match s with
  | EmptyString => if String.prefix suffix EmptyString then Some EmptyString else None
  | String c s' =>
      match (if Ascii.eqb c newline then None else longest_before suffix s') with
      | Some p => Some (String c p)
      | None => if String.prefix suffix s then Some EmptyString else None
      end
  end.

(** [re.match(r'/audio/(.+)\.mp3', path)]: the group is greedy. *)
Definition parse_song_name (path : string) : option string :=
  if PyStr.startswith "/audio/" path then
    match PyStr.drop 7 path with
    | String c r =>
        if Ascii.eqb c newline then None
        else option_map (String c) (longest_before ".mp3" r)
    | EmptyString => None
    end
  else None.

(** ** [get_device_info] *)

(** What the script reads from the result of [user_agents.parse]. *)
Record UserAgent : Type := mkUserAgent
  { is_mobile : bool; is_tablet : bool; is_pc : bool; is_bot : bool;
    browser_family : string; os_family : string }.

Record DeviceInfo : Type := mkDeviceInfo
  { device : string; browser : string; os : string }.

Definition unknown_device : DeviceInfo := mkDeviceInfo "Ukendt" "" "".

(** [parse_ua] is [None] when the [user_agents] package is missing
    ([HAS_UA] is false); applied to a string it is [None] when it raises. *)
Definition get_device_info (parse_ua : option (string -> option UserAgent))
    (ua_str : string) : DeviceInfo :=
  match parse_ua with
  | None => unknown_device
  | Some parse =>
      if PyStr.is_empty ua_str then unknown_device
      else match parse ua_str with
           | Some ua =>
               mkDeviceInfo
                 (if is_mobile ua then "Mobil"
                  else if is_tablet ua then "Tablet"
                  else if is_pc ua then "PC"
                  else if is_bot ua then "Bot"
                  else "Ukendt")
                 (browser_family ua) (os_family ua)
           | None => unknown_device
           end
  end.

(** ** Counters: [defaultdict] in insertion order *)

Section Counter.
Context {K V : Type} `{EqDecision K}.

(** [c[k] = f(c[k])], where a missing key reads as [dflt] and is added
    at the end. *)
Fixpoint update (f : V -> V) (dflt : V) (k : K) (c : list (K * V)) : list (K * V) :=
  match c with
  | [] => [(k, f dflt)]
  | (k', v) :: c' =>
      if decide (k = k') then (k', f v) :: c'
      else (k', v) :: update f dflt k c'
  end.

(** [c.get(k)] *)
Fixpoint get (k : K) (c : list (K * V)) : option V :=
  match c with
  | [] => None
  | (k', v) :: c' => if decide (k = k') then Some v else get k c'
  end.
End Counter.

(** [c[k] += 1] *)
Definition incr {K} `{EqDecision K} (k : K) (c : list (K * nat)) : list (K * nat) :=
  update S O k c.

(** ** Plays and the statistics shared by the three passes *)

(** One element of [plays]; [country] and [cc] are absent until the
    GeoIP pass. *)
Record Play : Type := mkPlay
  { p_t : string; p_ip : string; p_s : string; p_ua : string;
    p_device : string; p_browser : string; p_os : string;
    p_country : option string; p_cc : option string }.

Record Stats : Type := mkStats
  { plays : list Play;
    per_song : list (string * nat);
    per_ip : list (string * nat);
    per_day : list (string * nat);
    per_browser : list (string * nat);
    per_os : list (string * nat);
    per_device : list (string * nat);
    hourly_activity : list (Z * nat);
    all_ips : gset string }.

Definition empty_stats : Stats := mkStats [] [] [] [] [] [] [] [] ∅.

(** [hour = int(t[11:13]); hourly_activity[hour] += 1], skipped when
    [int] raises. *)
Definition count_hour (t : string) (h : list (Z * nat)) : list (Z * nat) :=
  match PyStr.int (PyStr.slice 11 13 t) with
  | Some hour => incr hour h
  | None => h
  end.

(** The block that each of the three passes runs for a play it keeps:
    the statements are those of the source; they touch different
    variables, so their order within the block does not matter. *)
Definition add_play (parse_ua : option (string -> option UserAgent))
    (t ip song ua : string) (st : Stats) : Stats :=
  let info := get_device_info parse_ua ua in
  let day_key := PyStr.take 10 t in
  {| plays := plays st ++
              [mkPlay t ip song (PyStr.take 120 ua)
                 (device info) (browser info) (os info) None None];
     per_song := incr song (per_song st);
     per_ip := incr ip (per_ip st);
     per_day := incr day_key (per_day st);
     per_browser := incr (browser info) (per_browser st);
     per_os := incr (os info) (per_os st);
     per_device := incr (device info) (per_device st);
     hourly_activity := count_hour t (hourly_activity st);
     all_ips := {[ ip ]} ∪ all_ips st |}.

(** ** First pass: the nginx access log *)

Record Primary : Type := mkPrimary
  { stats : Stats; page_views : nat; unique_page_ips : gset string }.

Definition is_play_status (status : Z) : bool := (status =? 200) || (status =? 206).

(** One iteration of the loop over the lines of [LOG_FILE]; [None] is a
    line that [LOG_PATTERN] does not match. *)
Definition primary_step (parse_ua : option (string -> option UserAgent))
    (st : Primary) (line : option LogMatch) : Primary :=
  match line with
  | None => st
  | Some m =>
      if bot_search (m_ua m) then st
      else
        let st1 :=
          if String.eqb (m_method m) "GET" && String.eqb (m_path m) "/"
             && (m_status m =? 200)
          then mkPrimary (stats st) (S (page_views st))
                 ({[ m_ip m ]} ∪ unique_page_ips st)
          else st in
        if negb (String.eqb (m_method m) "GET") || negb (is_play_status (m_status m))
        then st1
        else
          match parse_song_name (m_path m) with
          | None => st1
          | Some song =>
              if PyStr.is_empty song || PyStr.contains "-art" song then st1
              else
                mkPrimary
                  (add_play parse_ua (parse_time (m_time m)) (m_ip m) song (m_ua m)
                     (stats st1))
                  (page_views st1) (unique_page_ips st1)
          end
  end.

Definition primary_pass (parse_ua : option (string -> option UserAgent))
    (lines : list (option LogMatch)) : Primary :=
  fold_left (primary_step parse_ua) lines (mkPrimary empty_stats O ∅).

(** ** Second pass: the heartbeat log [np.log] *)

(** A dedup key: [(ip, song, t[:16])]. *)
Definition Triple : Type := string * string * string.

Definition triple_of (p : Play) : Triple := (p_ip p, p_s p, PyStr.take 16 (p_t p)).

(** [known_plays], as built from [plays] after the first pass. *)
Definition known_of (ps : list Play) : gset Triple :=
  fold_left (fun known p => {[ triple_of p ]} ∪ known) ps ∅.

(** One element of [np_entries]. *)
Record NpEntry : Type := mkNpEntry
  { e_ip : string; e_song : string; e_iso : string; e_ua : string;
    e_ts : DateTime.datetime }.

(** The timestamp of a heartbeat line: both [replace] calls, then
    [fromisoformat] and [replace(tzinfo=None)]. *)
Definition np_timestamp (time_str : string) : option DateTime.datetime :=
  option_map DateTime.drop_tzinfo
    (DateTime.fromisoformat
       (PyStr.replace "Z" "+00:00" (PyStr.replace "+00:00" "+00:00" time_str))).

(** The body of the loop over [np.log] up to the session test; [None]
    is a [continue]. *)
Definition parse_np_line (line : string) : option NpEntry :=
  match PyStr.split "|" (PyStr.strip line) with
  | p0 :: p1 :: p2 :: rest =>
      let ip := PyStr.strip p0 in
      let time_str := PyStr.strip p1 in
      let song := np_song (PyStr.strip p2) in
      let ua :=
        match rest with
        | _ :: p4 :: _ => PyStr.strip p4
        | [p3] => PyStr.strip p3
        | [] => EmptyString
        end in
      if PyStr.is_empty song || String.eqb song "-" then None
      else if bot_search ua then None
      else
        match np_timestamp time_str with
        | Some ts_utc =>
            Some (mkNpEntry ip song (DateTime.isoformat ts_utc +:+ "Z") ua ts_utc)
        | None => None
        end
  | _ => None
  end.

(** [np_sessions] and [np_entries]. *)
Abbreviation Sessions := (gmap (string * string) DateTime.datetime).

(** A heartbeat opens a session when its key has no earlier heartbeat or
    the last one is more than 30 seconds back. *)
Definition np_session_step (st : Sessions * list NpEntry) (line : string)
    : Sessions * list NpEntry :=
  match parse_np_line line with
  | None => st
  | Some e =>
      let key := (e_ip e, e_song e) in
      let entries :=
        match st.1 !! key with
        | Some last_ts =>
            if DateTime.total_seconds_gt (e_ts e) last_ts 30
            then st.2 ++ [e] else st.2
        | None => st.2 ++ [e]
        end in
      (<[ key := e_ts e ]> st.1, entries)
  end.

Definition np_entries (lines : list string) : list NpEntry :=
  (fold_left np_session_step lines (∅, [])).2.

(** The loop over [np_entries]: a candidate whose triple is known is
    dropped, the others are recorded. *)
Definition np_add_step (parse_ua : option (string -> option UserAgent))
    (st : gset Triple * Stats) (e : NpEntry) : gset Triple * Stats :=
  let key : Triple := (e_ip e, e_song e, PyStr.take 16 (e_iso e)) in
  if decide (key ∈ st.1) then st
  else ({[ key ]} ∪ st.1, add_play parse_ua (e_iso e) (e_ip e) (e_song e) (e_ua e) st.2).

Definition np_pass (parse_ua : option (string -> option UserAgent))
    (lines : list string) (st : gset Triple * Stats) : gset Triple * Stats :=
  fold_left (np_add_step parse_ua) (np_entries lines) st.

(** ** Third pass: the track-event log [track.log] *)

Record Track : Type := mkTrack
  { t_known : gset Triple;
    t_stats : Stats;
    per_song_duration : list (string * float);
    total_listen_time : float;
    track_plays_added : nat }.

(** [fromisoformat(time_str.replace('Z', '+00:00'))] without its zone. *)
Definition track_timestamp (time_str : string) : option DateTime.datetime :=
  option_map DateTime.drop_tzinfo
    (DateTime.fromisoformat (PyStr.replace "Z" "+00:00" time_str)).

(** [per_song_duration[song] += dur; total_listen_time += dur] for an
    accepted duration. *)
Definition add_duration (song dur_str : string) (st : Track) : Track :=
  match PyFloat.float dur_str with
  | Some dur =>
      if PyFloat.between 0 dur 600 then
        mkTrack (t_known st) (t_stats st)
          (update (fun v => PrimFloat.add v dur) 0%float song (per_song_duration st))
          (PrimFloat.add (total_listen_time st) dur)
          (track_plays_added st)
      else st
  | None => st
  end.

Definition track_step (parse_ua : option (string -> option UserAgent))
    (st : Track) (line : string) : Track :=
  match PyStr.split "|" (PyStr.strip line) with
  | p0 :: p1 :: p2 :: p3 :: p4 :: rest =>
      let ip := PyStr.strip p0 in
      let time_str := PyStr.strip p1 in
      let event := PyStr.strip p2 in
      let song := PyStr.strip p3 in
      let dur_str := PyStr.strip p4 in
      let ua := match rest with p5 :: _ => PyStr.strip p5 | [] => EmptyString end in
      if PyStr.is_empty song || String.eqb song "-"
         || negb (existsb (String.eqb song) VALID_SONGS)
      then st
      else if bot_search ua then st
      else
        let song := np_song song in
        if negb (String.eqb event "play") then
          if existsb (String.eqb event) ["end"; "leave"; "pause"]
          then add_duration song dur_str st
          else st
        else
          match track_timestamp time_str with
          | None => st
          | Some ts_utc =>
              let iso := DateTime.isoformat ts_utc +:+ "Z" in
              let key : Triple := (ip, song, PyStr.take 16 iso) in
              if decide (key ∈ t_known st) then st
              else
                mkTrack ({[ key ]} ∪ t_known st)
                  (add_play parse_ua iso ip song ua (t_stats st))
                  (per_song_duration st) (total_listen_time st)
                  (S (track_plays_added st))
          end
  | _ => st
  end.

Definition track_pass (parse_ua : option (string -> option UserAgent))
    (lines : list string) (known : gset Triple) (st : Stats) : Track :=
  fold_left (track_step parse_ua) lines (mkTrack known st [] 0%float O).

(** ** GeoIP: [is_private_ip] and [lookup_countries] *)

Definition is_private_ip (ip : string) : bool :=
  if PyStr.startswith "127." ip || PyStr.startswith "10." ip
     || PyStr.startswith "192.168." ip
  then true
  else if PyStr.startswith "172." ip
          && match PyStr.split "." ip with
             | _ :: second :: _ =>
                 match PyStr.int second with
                 | Some n => (16 <=? n) && (n <=? 31)
                 | None => false
                 end
             | _ => false
             end
  then true
  else String.eqb ip "::1" || PyStr.is_empty ip || PyStr.startswith "fe80:" ip.

(** A value of the cache: a dictionary that may hold the keys
    ['country'] and ['code']. *)
Record GeoEntry : Type := mkGeoEntry
  { country : option string; code : option string }.

Abbreviation GeoCache := (gmap string GeoEntry).

(** One element of the answer of the batch endpoint, with the keys the
    script reads. *)
Record GeoItem : Type := mkGeoItem
  { r_query : option string; r_country : option string;
    r_countryCode : option string }.

(** The outcome of one request: [None] when [urlopen], [read] or
    [json.loads] raises; otherwise the elements of the answer, where
    [None] is an element on which [r.get] raises. *)
Definition Response : Type := option (list (option GeoItem)).

(** The files of the script. *)
Inductive File : Type :=
  LOG_FILE | NP_LOG_FILE | TRACK_LOG_FILE | OUTPUT_FILE | GEO_CACHE_FILE.

(** What a run does to the outside. *)
Inductive Event : Type :=
| Read (f : File)
| Write (f : File)
| Urlopen (batch : list string)
| Sleep.

(** The loop over the elements of one answer; the flag is [false] when
    an element raised. *)
Fixpoint store_results (items : list (option GeoItem)) (cache : GeoCache)
    : GeoCache * bool :=
  match items with
  | [] => (cache, true)
  | None :: _ => (cache, false)
  | Some r :: rest =>
      store_results rest
        (<[ default EmptyString (r_query r) :=
              mkGeoEntry (Some (default "Ukendt" (r_country r)))
                         (Some (default EmptyString (r_countryCode r))) ]> cache)
  end.

(** [new_ips[i:i+100] for i in range(0, len(new_ips), 100)] *)
Definition batches (new_ips : list string) : list (list string) :=
  map (fun i => take 100 (drop (100 * i) new_ips))
      (seq 0 ((length new_ips + 99) / 100))%nat.

(** The body of the [try] block for one batch: the cache after it and
    whether it ran to its end. *)
Definition request (service : nat -> list string -> Response) (i : nat)
    (batch : list string) (cache : GeoCache) : GeoCache * bool :=
  match service i batch with
  | None => (cache, false)
  | Some items => store_results items cache
  end.

(** The loop over the batches; [i] numbers the requests of the run.  An
    exception leaves the loop ([break]). *)
Fixpoint run_batches (service : nat -> list string -> Response) (i : nat)
    (bs : list (list string)) (cache : GeoCache) : GeoCache * list Event :=
  match bs with
  | [] => (cache, [])
  | batch :: bs' =>
      match request service i batch cache with
      | (cache', true) =>
          let '(c, ev) := run_batches service (S i) bs' cache' in
          (c, Urlopen batch :: Sleep :: ev)
      | (cache', false) => (cache', [Urlopen batch])
      end
  end.

Definition local_entry : GeoEntry := mkGeoEntry (Some "Lokalt") (Some "LO").

(** The final loop of [lookup_countries]. *)
Definition mark_private (ips : list string) (cache : GeoCache) : GeoCache :=
  fold_left
    (fun c ip =>
       if bool_decide (c !! ip = None) && is_private_ip ip
       then <[ ip := local_entry ]> c else c)
    ips cache.

(** [[ip for ip in ips if ip not in cache and not is_private_ip(ip)]] *)
Definition new_ips (ips : list string) (cache : GeoCache) : list string :=
  List.filter (fun ip => bool_decide (cache !! ip = None) && negb (is_private_ip ip)) ips.

Definition lookup_countries (service : nat -> list string -> Response)
    (ips : list string) (cache : GeoCache) : GeoCache * list Event :=
  match new_ips ips cache with
  | [] => (cache, [])
  | _ =>
      let '(c, ev) := run_batches service 0 (batches (new_ips ips cache)) cache in
      (mark_private ips c, ev)
  end.

(** [geo_cache.get(ip, {}).get('country', dflt)] *)
Definition country_of (cache : GeoCache) (ip dflt : string) : string :=
  match cache !! ip with
  | Some e => default dflt (country e)
  | None => dflt
  end.

(** [geo_cache.get(ip, {}).get('code', '')] *)
Definition code_of (cache : GeoCache) (ip : string) : string :=
  match cache !! ip with
  | Some e => default EmptyString (code e)
  | None => EmptyString
  end.

(** ** Sorting and the derived figures *)

Section Sorting.
Context {A : Type} (le : A -> A -> bool).

(** [sorted(l, key=..., reverse=True)]: descending and stable, where
    [le a b] compares the keys of [a] and [b]. *)
Fixpoint insert_desc (x : A) (l : list A) : list A :=
  match l with
  | [] => [x]
  | y :: l' => if le y x then x :: l else y :: insert_desc x l'
  end.

Definition sorted_desc (l : list A) : list A := fold_right insert_desc [] l.

(** [sorted(l)]: ascending and stable. *)
Fixpoint insert_asc (x : A) (l : list A) : list A :=
  match l with
  | [] => [x]
  | y :: l' => if le x y then x :: l else y :: insert_asc x l'
  end.

Definition sorted_asc (l : list A) : list A := fold_right insert_asc [] l.
End Sorting.

Definition by_count {K} (a b : K * nat) : bool := (a.2 <=? b.2)%nat.

(** [max(d, key=d.get)]: the first key, in the order of the dictionary,
    whose value is the largest. *)
Fixpoint max_from (best : Z * nat) (l : list (Z * nat)) : Z :=
  match l with
  | [] => best.1
  | kv :: l' => if (best.2 <? kv.2)%nat then max_from kv l' else max_from best l'
  end.

Definition max_key (d : list (Z * nat)) : option Z :=
  match d with
  | [] => None
  | kv :: l => Some (max_from kv l)
  end.

(** ** The report *)

Module Report.

Record TopIp : Type := mkTopIp
  { ip : string; plays : nat; country : string }.

Record t : Type := mk
  { generated : string;
    total_plays : nat;
    unique_listeners : nat;
    page_views : nat;
    unique_visitors : nat;
    avg_plays_per_day : float;
    peak_hour : Z;
    total_listen_minutes : float;
    per_song_duration : list (string * float);
    per_song : list (string * nat);
    per_day : list (string * nat);
    hourly_activity : list (string * nat);
    per_browser : list (string * nat);
    per_os : list (string * nat);
    per_device : list (string * nat);
    per_country : list (string * nat);
    top_ips : list TopIp;
    recent_plays : list Play }.

End Report.

(** The loop [for ip in per_ip: per_country[country] += per_ip[ip]]. *)
Definition count_countries (cache : GeoCache) (per_ip : list (string * nat))
    : list (string * nat) :=
  fold_left
    (fun pc kv => update (fun v => (v + kv.2)%nat) O (country_of cache kv.1 "Ukendt") pc)
    per_ip [].

(** The loop that adds ['country'] and ['cc'] to every play. *)
Definition with_country (cache : GeoCache) (p : Play) : Play :=
  mkPlay (p_t p) (p_ip p) (p_s p) (p_ua p) (p_device p) (p_browser p) (p_os p)
    (Some (country_of cache (p_ip p) "Ukendt")) (Some (code_of cache (p_ip p))).

(** [plays.sort(key=lambda x: x['t'], reverse=True)] *)
Definition sort_plays (ps : list Play) : list Play :=
  sorted_desc (fun a b => String.leb (p_t a) (p_t b)) ps.

(** The statements of [main] from the GeoIP lookup to the dictionary
    [stats]; [final_plays] is [plays] after the sort. *)
Definition final_plays (cache : GeoCache) (st : Stats) : list Play :=
  sort_plays (map (with_country cache) (plays st)).

Definition build_report (now : string) (cache : GeoCache) (pr : Primary) (tr : Track)
    : Report.t :=
  let st := t_stats tr in
  let ps := final_plays cache st in
  let top_ips := take 20 (sorted_desc by_count (per_ip st)) in
  let total_days := Nat.max (length (per_day st)) 1 in
  {| Report.generated := now;
     Report.total_plays := length ps;
     Report.unique_listeners := length (per_ip st);
     Report.page_views := page_views pr;
     Report.unique_visitors := size (unique_page_ips pr);
     Report.avg_plays_per_day :=
       PyFloat.round1 (PyFloat.div_Z (Z.of_nat (length ps)) (Z.of_nat total_days));
     Report.peak_hour := default 0 (max_key (hourly_activity st));
     Report.total_listen_minutes :=
       PyFloat.round1 (PrimFloat.div (total_listen_time tr) 60);
     Report.per_song_duration :=
       map (fun kv => (kv.1, PyFloat.round1 (PrimFloat.div kv.2 60)))
         (sorted_desc (fun a b => PrimFloat.leb a.2 b.2) (per_song_duration tr));
     Report.per_song := sorted_desc by_count (per_song st);
     Report.per_day := sorted_asc (fun a b => String.leb a.1 b.1) (per_day st);
     Report.hourly_activity :=
       map (fun h => (PyStr.of_nat h, default O (get (Z.of_nat h) (hourly_activity st))))
         (seq 0 24);
     Report.per_browser := take 10 (sorted_desc by_count (per_browser st));
     Report.per_os := take 10 (sorted_desc by_count (per_os st));
     Report.per_device := sorted_desc by_count (per_device st);
     Report.per_country := take 15 (sorted_desc by_count (count_countries cache (per_ip st)));
     Report.top_ips :=
       map (fun kv => Report.mkTopIp kv.1 kv.2 (country_of cache kv.1 "?")) top_ips;
     Report.recent_plays := take 200 ps |}.

(** ** [main] *)

(** The files as a run finds them: [None] is a missing file.  The
    access log is given by what [LOG_PATTERN.match] returns on each of
    its lines; the cache file by what [json.load] returns, [None] when
    it raises. *)
Record Files : Type := mkFiles
  { log_file : option (list (option LogMatch));
    np_log_file : option (list string);
    track_log_file : option (list string);
    geo_cache_file : option (option GeoCache);
    output_file : option Report.t }.

(** What a run takes from its environment: the [user_agents] parser,
    the batch endpoint, the order in which a set of strings is iterated
    and the clock. *)
Record Env : Type := mkEnv
  { parse_ua : option (string -> option UserAgent);
    service : nat -> list string -> Response;
    set_order : gset string -> list string;
    utcnow : string }.

Definition load_geo_cache (fs : Files) : GeoCache * list Event :=
  match geo_cache_file fs with
  | Some (Some cache) => (cache, [Read GEO_CACHE_FILE])
  | Some None => (∅, [Read GEO_CACHE_FILE])
  | None => (∅, [])
  end.

(** The three passes over the logs. *)
Definition passes (env : Env) (lines : list (option LogMatch))
    (np track : option (list string)) : Primary * Track :=
  let pr := primary_pass (parse_ua env) lines in
  let known_plays := known_of (plays (stats pr)) in
  let after_np :=
    match np with
    | Some ls => np_pass (parse_ua env) ls (known_plays, stats pr)
    | None => (known_plays, stats pr)
    end in
  let tr :=
    match track with
    | Some ls => track_pass (parse_ua env) ls after_np.1 after_np.2
    | None => mkTrack after_np.1 after_np.2 [] 0%float O
    end in
  (pr, tr).

(** The cache after [lookup_countries], and the requests made. *)
Definition resolve (env : Env) (pr : Primary) (tr : Track) (cache : GeoCache)
    : GeoCache * list Event :=
  lookup_countries (service env)
    (set_order env (all_ips (t_stats tr) ∪ unique_page_ips pr)) cache.

(** The files after the run and what the run did, in order. *)
Definition main (env : Env) (fs : Files) : Files * list Event :=
  match log_file fs with
  | None => (fs, [])
  | Some lines =>
      let '(pr, tr) := passes env lines (np_log_file fs) (track_log_file fs) in
      let '(cache0, ev_load) := load_geo_cache fs in
      let '(cache, ev_geo) := resolve env pr tr cache0 in
      let report := build_report (utcnow env) cache pr tr in
      (mkFiles (log_file fs) (np_log_file fs) (track_log_file fs)
         (Some (Some cache)) (Some report),
       [Read LOG_FILE]
       ++ match np_log_file fs with Some _ => [Read NP_LOG_FILE] | None => [] end
       ++ match track_log_file fs with Some _ => [Read TRACK_LOG_FILE] | None => [] end
       ++ ev_load ++ ev_geo ++ [Write GEO_CACHE_FILE; Write OUTPUT_FILE])
  end.

(** [plays] at the end of a run, after the sort. *)
Definition plays_of (env : Env) (fs : Files) : list Play :=
  match log_file fs with
  | None => []
  | Some lines =>
      let '(pr, tr) := passes env lines (np_log_file fs) (track_log_file fs) in
      final_plays (resolve env pr tr (load_geo_cache fs).1).1 (t_stats tr)
  end.

(** The report of a run whose access log exists. *)
Definition report_of (env : Env) (fs : Files) : option Report.t :=
  match log_file fs with
  | None => None
  | Some _ => output_file (main env fs).1
  end.

(** ** Vocabulary of the statements *)

(** No two plays at different positions of [ps] have the same key
    [(ip, song, minute)]. *)
Definition dedup_invariant (ps : list Play) : Prop :=
  forall (i j : nat) (p q : Play),
    i <> j -> ps !! i = Some p -> ps !! j = Some q -> triple_of p <> triple_of q.

(** The plays of the access log, as they stand at the end of the first
    pass. *)
Definition primary_plays (env : Env) (lines : list (option LogMatch)) : list Play :=
  plays (stats (primary_pass (parse_ua env) lines)).

(** The cache after the requests for [bs], numbered from [i], when all
    of them run to their end; [None] when one of them fails. *)
Fixpoint run_ok (service : nat -> list string -> Response) (i : nat)
    (bs : list (list string)) (cache : GeoCache) : option GeoCache :=
  match bs with
  | [] => Some cache
  | batch :: bs' =>
      match request service i batch cache with
      | (cache', true) => run_ok service (S i) bs' cache'
      | (_, false) => None
      end
  end.

(** The events of requests that ran to their end. *)
Definition ok_events (bs : list (list string)) : list Event :=
  concat (map (fun batch => [Urlopen batch; Sleep]) bs).
(** What the two later passes keep true: the plays are those of the
    first pass followed by added plays whose keys are pairwise different
    and different from the keys of the first pass, and [known_plays]
    holds the keys of all plays. *)
Definition dedup_state (prim : list Play) (known : gset Triple) (st : Stats) : Prop :=
  exists added,
    plays st = prim ++ added
    /\ NoDup (map triple_of added)
    /\ (forall k, k ∈ map triple_of added -> k ∉ map triple_of prim)
    /\ (forall k, k ∈ known <-> k ∈ map triple_of (plays st)).


(** ** Inputs of the scenarios *)

(** An environment without the [user_agents] package, whose requests to
    the batch endpoint all fail. *)
Definition offline : Env :=
  mkEnv None (fun _ _ => None) elements "2024-01-02T00:00:00Z".

(** A line of the access log: a [GET] answered with status 200. *)
Definition access_line (ip time path : string) : option LogMatch :=
  Some (mkLogMatch ip time "GET" path 200 4096 "-" "Mozilla/5.0").

(** Only the access log exists. *)
Definition access_log_only (lines : list (option LogMatch)) : Files :=
  mkFiles (Some lines) None None None None.

(** Scenario A: one play of [/audio/kokosnoed.mp3] by 1.2.3.4 at
    10:00:05 in the access log, and an [end] event of 185 seconds for
    the same address and song on the same day in the track log. *)
Definition scenario_a (geo : option (option GeoCache)) (out : option Report.t) : Files :=
  mkFiles
    (Some [access_line "1.2.3.4" "01/Jan/2024:10:00:05 +0000" "/audio/kokosnoed.mp3"])
    None
    (Some ["1.2.3.4|2024-01-01T10:03:10Z|end|kokosnoed|185|Mozilla/5.0"])
    geo out.

(** Two requests for the same song by the same address within one
    minute, both in the access log. *)
Definition same_minute_lines : list (option LogMatch) :=
  [access_line "1.2.3.4" "01/Jan/2024:10:00:05 +0000" "/audio/brormand.mp3";
   access_line "1.2.3.4" "01/Jan/2024:10:00:40 +0000" "/audio/brormand.mp3"].

Definition same_minute_twice : Files := access_log_only same_minute_lines.


(** Scenario E: the only address of the run is 192.168.1.5. *)
Definition private_only : Files :=
  access_log_only
    [access_line "192.168.1.5" "01/Jan/2024:10:00:05 +0000" "/audio/brormand.mp3"].

(** A play at 10 o'clock followed by a play at 5 o'clock. *)
Definition ten_then_five : Files :=
  access_log_only
    [access_line "1.2.3.4" "01/Jan/2024:10:00:05 +0000" "/audio/brormand.mp3";
     access_line "1.2.3.4" "01/Jan/2024:05:30:00 +0000" "/audio/brormand.mp3"].



(** The batches of the requests of a run, in order. *)
Definition requested (ev : list Event) : list (list string) :=
  omap (fun e => match e with Urlopen batch => Some batch | _ => None end) ev.

(** A service that answers every address of a batch with Denmark. *)
Definition danish_service (i : nat) (batch : list string) : Response :=
  Some (map (fun ip => Some (mkGeoItem (Some ip) (Some "Danmark") (Some "DK"))) batch).

(** The canonical names of the songs of the white list. *)
Definition canonical_songs : list string := map np_song VALID_SONGS.

(** A track log with a play, an end of 185 seconds, a pause of 700
    seconds and an event for a song that is not on the white list. *)
Definition track_lines : list string :=
  ["5.6.7.8|2024-01-01T11:00:00Z|play|kokosnoed|0|Mozilla/5.0";
   "5.6.7.8|2024-01-01T11:03:05Z|end|kokosnoed|185|Mozilla/5.0";
   "5.6.7.8|2024-01-01T11:20:00Z|pause|brormand|700|Mozilla/5.0";
   "5.6.7.8|2024-01-01T11:21:00Z|play|unknown-song|0|Mozilla/5.0"].

(** The sum of the counts of a table. *)
Definition total {K} (c : list (K * nat)) : nat := sum_list (map snd c).

(** [l] is in descending order of [le]: of two elements, the later one
    is below the earlier one. *)
Definition descending {A} (le : A -> A -> bool) (l : list A) : Prop :=
  forall (i j : nat) (a b : A),
    (i < j)%nat -> l !! i = Some a -> l !! j = Some b -> le b a = true.

(** [l] is in ascending order of [le]. *)
Definition ascending {A} (le : A -> A -> bool) (l : list A) : Prop :=
  forall (i j : nat) (a b : A),
    (i < j)%nat -> l !! i = Some a -> l !! j = Some b -> le a b = true.

(** The counters of [st] agree with its plays: each of the six tables
    counts every play once, under distinct keys and with no zero count,
    and the hours count every play at most once. *)
Definition well_counted (st : Stats) : Prop :=
  let n := length (plays st) in
  let ok (c : list (string * nat)) :=
    total c = n /\ NoDup (map fst c) /\ Forall (fun kv => (1 <= kv.2)%nat) c in
  ok (per_song st) /\ ok (per_ip st) /\ ok (per_day st)
  /\ ok (per_browser st) /\ ok (per_os st) /\ ok (per_device st)
  /\ (total (hourly_activity st) <= n)%nat /\ NoDup (map fst (hourly_activity st)).

(** Every character of [s] satisfies [P]. *)
Fixpoint all_chars (P : ascii -> bool) (s : string) : bool :=
  match s with
  | EmptyString => true
  | String c s' => P c && all_chars P s'
  end.

Definition not_newline (c : ascii) : bool := negb (Ascii.eqb c newline).

(** The characters of the time part of [isoformat]: digits, [:] and
    [.]. *)
Definition time_char (c : ascii) : bool :=
  PyStr.is_digit c || Ascii.eqb c ":" || Ascii.eqb c ".".

(** The characters of [isoformat]. *)
Definition iso_char (c : ascii) : bool :=
  time_char c || Ascii.eqb c "-" || Ascii.eqb c "T".

(** The labels that [get_device_info] gives to a device. *)
Definition device_labels : list string := ["Mobil"; "Tablet"; "PC"; "Bot"; "Ukendt"].





(** The only addresses are one public and one private listener. *)
Definition public_and_private : Files :=
  access_log_only
    [access_line "8.8.8.8" "01/Jan/2024:10:00:05 +0000" "/audio/brormand.mp3";
     access_line "192.168.1.5" "01/Jan/2024:11:00:05 +0000" "/audio/brormand.mp3"].

(** * Properties *)

(** ** The shape of a run *)

Lemma main_files env fs lines :
  log_file fs = Some lines ->
  let pt := passes env lines (np_log_file fs) (track_log_file fs) in
  let cache := (resolve env pt.1 pt.2 (load_geo_cache fs).1).1 in
  (main env fs).1 =
    mkFiles (log_file fs) (np_log_file fs) (track_log_file fs)
      (Some (Some cache)) (Some (build_report (utcnow env) cache pt.1 pt.2)).
Proof.
  intros Hlog. unfold main. rewrite Hlog.
  destruct (passes env lines (np_log_file fs) (track_log_file fs)) as [pr tr].
  destruct (load_geo_cache fs) as [cache0 ev0]. simpl.
  destruct (resolve env pr tr cache0) as [cache ev]. reflexivity.
Qed.

Lemma report_of_run env fs lines :
  log_file fs = Some lines ->
  let pt := passes env lines (np_log_file fs) (track_log_file fs) in
  let cache := (resolve env pt.1 pt.2 (load_geo_cache fs).1).1 in
  report_of env fs = Some (build_report (utcnow env) cache pt.1 pt.2).
Proof.
  intros Hlog. unfold report_of. rewrite Hlog.
  rewrite (main_files env fs lines Hlog). reflexivity.
Qed.

Lemma report_of_inv env fs r :
  report_of env fs = Some r ->
  exists lines cache pr tr,
    log_file fs = Some lines
    /\ passes env lines (np_log_file fs) (track_log_file fs) = (pr, tr)
    /\ cache = (resolve env pr tr (load_geo_cache fs).1).1
    /\ r = build_report (utcnow env) cache pr tr.
Proof.
  intros Hr. destruct (log_file fs) as [lines|] eqn:Hlog.
  - pose proof (report_of_run env fs lines Hlog) as E. cbv zeta in E.
    destruct (passes env lines (np_log_file fs) (track_log_file fs)) as [pr tr] eqn:Hp.
    cbn [fst snd] in E.
    exists lines, (resolve env pr tr (load_geo_cache fs).1).1, pr, tr.
    repeat split; congruence.
  - unfold report_of in Hr. rewrite Hlog in Hr. discriminate.
Qed.

(** ** A missing access log *)

(** C8: when the access log is missing the run is a no-op: the files
    (the report and the GeoIP cache among them) are left as they were,
    nothing is read, written or requested, and no report is produced,
    whatever the other two logs hold. *)
Theorem missing_access_log_is_noop env fs :
  log_file fs = None ->
  main env fs = (fs, []) /\ report_of env fs = None.
Proof.
  intros Hlog. unfold report_of, main. rewrite Hlog. split; reflexivity.
Qed.

(** ** The caps of the report *)

Lemma length_take_le {A} (n : nat) (l : list A) : (length (take n l) <= n)%nat.
Proof. rewrite length_take. lia. Qed.

(** C9: in every report, [per_browser] and [per_os] have at most 10
    entries, [per_country] at most 15, [top_ips] at most 20 and
    [recent_plays] at most 200. *)
Theorem report_caps env fs r :
  report_of env fs = Some r ->
  (length (Report.per_browser r) <= 10)%nat
  /\ (length (Report.per_os r) <= 10)%nat
  /\ (length (Report.per_country r) <= 15)%nat
  /\ (length (Report.top_ips r) <= 20)%nat
  /\ (length (Report.recent_plays r) <= 200)%nat.
Proof.
  intros Hr. apply report_of_inv in Hr as (lines & cache & pr & tr & _ & _ & _ & ->).
  unfold build_report; simpl. rewrite length_map.
  repeat split; apply length_take_le.
Qed.

(** ** Deduplication *)

Lemma fold_left_invariant {A B} (P : A -> Prop) (f : A -> B -> A) (l : list B) (a : A) :
  P a -> (forall a b, P a -> P (f a b)) -> P (fold_left f l a).
Proof.
  intros Ha Hstep. revert a Ha.
  induction l as [|b l IH]; intros a Ha; simpl; auto.
Qed.

Lemma known_of_acc (ps : list Play) (acc : gset Triple) (k : Triple) :
  k ∈ fold_left (fun known p => {[ triple_of p ]} ∪ known) ps acc
  <-> k ∈ acc \/ k ∈ map triple_of ps.
Proof.
  revert acc. induction ps as [|p ps IH]; intros acc; simpl.
  - rewrite elem_of_nil. tauto.
  - rewrite IH, elem_of_union, elem_of_singleton, elem_of_cons. tauto.
Qed.

Lemma known_of_spec (ps : list Play) (k : Triple) :
  k ∈ known_of ps <-> k ∈ map triple_of ps.
Proof.
  unfold known_of. rewrite known_of_acc, elem_of_empty. tauto.
Qed.

Lemma add_play_plays pu t ip song ua st :
  exists p, plays (add_play pu t ip song ua st) = plays st ++ [p]
            /\ triple_of p = (ip, song, PyStr.take 16 t).
Proof. eexists. split; reflexivity. Qed.

Lemma dedup_state_init (prim : Stats) :
  dedup_state (plays prim) (known_of (plays prim)) prim.
Proof.
  exists []. rewrite app_nil_r. repeat split.
  - constructor.
  - simpl. intros k Hk. apply elem_of_nil in Hk. contradiction.
  - apply known_of_spec.
  - apply known_of_spec.
Qed.

Lemma dedup_state_add prim known st pu t ip song ua :
  dedup_state prim known st ->
  (ip, song, PyStr.take 16 t) ∉ known ->
  dedup_state prim ({[ (ip, song, PyStr.take 16 t) ]} ∪ known)
    (add_play pu t ip song ua st).
Proof.
  intros (added & Hpl & Hnd & Hdis & Hkn) Hnew.
  destruct (add_play_plays pu t ip song ua st) as (p & Hp & Hk).
  set (key := (ip, song, PyStr.take 16 t)) in *.
  assert (Hfresh : key ∉ map triple_of (plays st)) by (rewrite <- Hkn; exact Hnew).
  rewrite Hpl, map_app, elem_of_app in Hfresh.
  exists (added ++ [p]). repeat split.
  - rewrite Hp, Hpl, app_assoc. reflexivity.
  - rewrite map_app. simpl. apply NoDup_app. split; [exact Hnd|]. split.
    + intros k Hin Hin'. apply list_elem_of_singleton in Hin'. subst k.
      rewrite Hk in Hin. tauto.
    + apply NoDup_singleton.
  - intros k. rewrite map_app, elem_of_app. simpl. rewrite list_elem_of_singleton.
    intros [Hin | ->]; [auto|]. rewrite Hk. tauto.
  - rewrite Hp, map_app, elem_of_app, elem_of_union, elem_of_singleton.
    simpl. rewrite list_elem_of_singleton, Hk, Hkn. tauto.
  - rewrite Hp, map_app, elem_of_app, elem_of_union, elem_of_singleton.
    simpl. rewrite list_elem_of_singleton, Hk, Hkn. tauto.
Qed.

Lemma np_pass_dedup pu lines prim st :
  dedup_state prim st.1 st.2 ->
  dedup_state prim (np_pass pu lines st).1 (np_pass pu lines st).2.
Proof.
  intros H. unfold np_pass.
  apply (fold_left_invariant (fun s => dedup_state prim s.1 s.2)); [exact H|].
  intros [known s] e Hs. unfold np_add_step. simpl in *.
  destruct (decide _) as [Hin|Hnin]; simpl; [exact Hs|].
  apply dedup_state_add; assumption.
Qed.

Lemma add_duration_state song dur st :
  t_known (add_duration song dur st) = t_known st
  /\ t_stats (add_duration song dur st) = t_stats st.
Proof.
  unfold add_duration. destruct (PyFloat.float dur) as [d|]; [|auto].
  destruct (PyFloat.between 0 d 600); auto.
Qed.

Lemma track_step_dedup pu prim st line :
  dedup_state prim (t_known st) (t_stats st) ->
  dedup_state prim (t_known (track_step pu st line)) (t_stats (track_step pu st line)).
Proof.
  intros H. unfold track_step.
  destruct (PyStr.split "|" (PyStr.strip line)) as [|p0 [|p1 [|p2 [|p3 [|p4 rest]]]]]; try exact H.
  destruct (_ || _); [exact H|].
  destruct (bot_search _); [exact H|].
  destruct (negb (String.eqb (PyStr.strip p2) "play")).
  - destruct (existsb _ _); [|exact H].
    destruct (add_duration_state (np_song (PyStr.strip p3)) (PyStr.strip p4) st) as [-> ->].
    exact H.
  - destruct (track_timestamp _) as [ts|]; [|exact H].
    destruct (decide _) as [Hin|Hnin]; [exact H|]. simpl.
    apply dedup_state_add; assumption.
Qed.

Lemma track_pass_dedup pu lines prim known st :
  dedup_state prim known st ->
  dedup_state prim (t_known (track_pass pu lines known st))
    (t_stats (track_pass pu lines known st)).
Proof.
  intros H. unfold track_pass.
  apply (fold_left_invariant (fun s => dedup_state prim (t_known s) (t_stats s))).
  - exact H.
  - intros s line Hs. apply track_step_dedup. exact Hs.
Qed.

Lemma passes_dedup env lines np track :
  let tr := (passes env lines np track).2 in
  dedup_state (primary_plays env lines) (t_known tr) (t_stats tr).
Proof.
  unfold passes, primary_plays. simpl.
  set (pr := primary_pass (parse_ua env) lines).
  assert (Hnp : dedup_state (plays (stats pr))
            (match np with
             | Some ls => np_pass (parse_ua env) ls (known_of (plays (stats pr)), stats pr)
             | None => (known_of (plays (stats pr)), stats pr)
             end).1
            (match np with
             | Some ls => np_pass (parse_ua env) ls (known_of (plays (stats pr)), stats pr)
             | None => (known_of (plays (stats pr)), stats pr)
             end).2).
  { destruct np as [ls|].
    - apply np_pass_dedup. simpl. apply dedup_state_init.
    - simpl. apply dedup_state_init. }
  destruct track as [ls|].
  - apply track_pass_dedup. exact Hnp.
  - simpl. exact Hnp.
Qed.

Section SortingFacts.
Context {A : Type} (le : A -> A -> bool).

Lemma insert_desc_perm (x : A) (l : list A) : insert_desc le x l ≡ₚ x :: l.
Proof.
  induction l as [|y l IH]; simpl; [reflexivity|].
  destruct (le y x); [reflexivity|].
  rewrite IH. apply Permutation_swap.
Qed.

Lemma sorted_desc_perm (l : list A) : sorted_desc le l ≡ₚ l.
Proof.
  induction l as [|x l IH]; simpl; [reflexivity|].
  rewrite insert_desc_perm, IH. reflexivity.
Qed.

Lemma insert_asc_perm (x : A) (l : list A) : insert_asc le x l ≡ₚ x :: l.
Proof.
  induction l as [|y l IH]; simpl; [reflexivity|].
  destruct (le x y); [reflexivity|].
  rewrite IH. apply Permutation_swap.
Qed.

Lemma sorted_asc_perm (l : list A) : sorted_asc le l ≡ₚ l.
Proof.
  induction l as [|x l IH]; simpl; [reflexivity|].
  rewrite insert_asc_perm, IH. reflexivity.
Qed.
End SortingFacts.

Lemma triple_of_with_country cache p : triple_of (with_country cache p) = triple_of p.
Proof. reflexivity. Qed.

Lemma final_plays_keys cache st :
  map triple_of (final_plays cache st) ≡ₚ map triple_of (plays st).
Proof.
  unfold final_plays, sort_plays. rewrite sorted_desc_perm.
  rewrite map_map. reflexivity.
Qed.

Lemma NoDup_filter_lookup {A} (f : A -> bool) (l : list A) :
  NoDup (List.filter f l) ->
  forall i j x, f x = true -> l !! i = Some x -> l !! j = Some x -> i = j.
Proof.
  induction l as [|y l IH]; intros Hnd i j x Hx Hi Hj.
  - rewrite lookup_nil in Hi. discriminate.
  - simpl in Hnd.
    assert (Hl : NoDup (List.filter f l)).
    { destruct (f y); [apply NoDup_cons in Hnd; tauto | exact Hnd]. }
    assert (Hin : forall n, l !! n = Some x -> y = x -> False).
    { intros n Hn ->. rewrite Hx in Hnd. apply NoDup_cons in Hnd as [Hnin _].
      apply Hnin. apply list_elem_of_In, filter_In. split; [|exact Hx].
      apply list_elem_of_In, list_elem_of_lookup. eauto. }
    destruct i as [|i], j as [|j]; simpl in Hi, Hj.
    + reflexivity.
    + exfalso. injection Hi as Hi. eauto.
    + exfalso. injection Hj as Hj. eauto.
    + f_equal. eauto.
Qed.

Lemma filter_none {A} (f : A -> bool) (l : list A) :
  (forall x, x ∈ l -> f x = false) -> List.filter f l = [].
Proof.
  induction l as [|x l IH]; intros H; simpl; [reflexivity|].
  rewrite (H x) by (left). apply IH. intros y Hy. apply H. right. exact Hy.
Qed.

Lemma filter_all {A} (f : A -> bool) (l : list A) :
  (forall x, x ∈ l -> f x = true) -> List.filter f l = l.
Proof.
  induction l as [|x l IH]; intros H; simpl; [reflexivity|].
  rewrite (H x) by (left). f_equal. apply IH. intros y Hy. apply H. right. exact Hy.
Qed.

Lemma filter_perm {A} (f : A -> bool) (l l' : list A) :
  l ≡ₚ l' -> List.filter f l ≡ₚ List.filter f l'.
Proof.
  induction 1 as [|x l l' _ IH|x y l|l l' l'' _ IH1 _ IH2]; simpl.
  - reflexivity.
  - destruct (f x); [rewrite IH|]; auto.
  - destruct (f x), (f y); try reflexivity. apply Permutation_swap.
  - etransitivity; eauto.
Qed.

(** C1: the keys [(ip, song, minute)] of the plays at the end of a run
    are, up to order, the keys of the plays of the access log followed
    by keys that are pairwise different and are not keys of a play of
    the access log; hence two plays at different positions that have
    the same key both have the key of a play of the access log, while
    plays of the access log may share a key. *)
Theorem dedup_of_added_plays env fs lines :
  log_file fs = Some lines ->
  (exists added : list Triple,
      map triple_of (plays_of env fs)
        ≡ₚ map triple_of (primary_plays env lines) ++ added
      /\ NoDup added
      /\ (forall k, k ∈ added -> k ∉ map triple_of (primary_plays env lines)))
  /\ (forall (i j : nat) (p q : Play),
         i <> j -> plays_of env fs !! i = Some p -> plays_of env fs !! j = Some q ->
         triple_of p = triple_of q ->
         triple_of p ∈ map triple_of (primary_plays env lines)).
Proof.
  intros Hlog.
  assert (Hdec : exists added : list Triple,
      map triple_of (plays_of env fs)
        ≡ₚ map triple_of (primary_plays env lines) ++ added
      /\ NoDup added
      /\ (forall k, k ∈ added -> k ∉ map triple_of (primary_plays env lines))).
  { unfold plays_of. rewrite Hlog.
    pose proof (passes_dedup env lines (np_log_file fs) (track_log_file fs)) as H.
    destruct (passes env lines (np_log_file fs) (track_log_file fs)) as [pr tr].
    simpl in H. destruct H as (added & Hpl & Hnd & Hdis & _).
    exists (map triple_of added). split; [|split; assumption].
    rewrite final_plays_keys, Hpl, map_app. reflexivity. }
  split; [exact Hdec|].
  destruct Hdec as (added & Hperm & Hnd & Hdis).
  intros i j p q Hij Hi Hj Hk.
  set (prim := map triple_of (primary_plays env lines)) in *.
  destruct (decide (triple_of p ∈ prim)) as [Hin|Hnin]; [exact Hin|exfalso].
  set (f := fun k : Triple => bool_decide (k ∉ prim)).
  assert (Hf : NoDup (List.filter f (map triple_of (plays_of env fs)))).
  { rewrite (filter_perm f _ _ Hperm), List.filter_app.
    rewrite (filter_none f prim), (filter_all f added); [exact Hnd| |].
    - intros k Hkin. apply bool_decide_eq_true. auto.
    - intros k Hkin. apply bool_decide_eq_false. tauto. }
  apply Hij.
  apply (NoDup_filter_lookup f _ Hf i j (triple_of p)).
  - apply bool_decide_eq_true. exact Hnin.
  - rewrite list_lookup_fmap, Hi. reflexivity.
  - rewrite list_lookup_fmap, Hj, Hk. reflexivity.
Qed.

Lemma missing_access_log_is_noop_witness :
  log_file (mkFiles None (Some ["1.2.3.4|2024-01-01T10:00:05Z|brormand"]) None None None) = None
  /\ main offline (mkFiles None (Some ["1.2.3.4|2024-01-01T10:00:05Z|brormand"]) None None None)
     = (mkFiles None (Some ["1.2.3.4|2024-01-01T10:00:05Z|brormand"]) None None None, [])
  /\ report_of offline (mkFiles None (Some ["1.2.3.4|2024-01-01T10:00:05Z|brormand"]) None None None)
     = None.
Proof.
  split; [reflexivity|].
  apply (missing_access_log_is_noop offline
           (mkFiles None (Some ["1.2.3.4|2024-01-01T10:00:05Z|brormand"]) None None None)).
  reflexivity.
Defined.

Lemma report_caps_witness :
  exists r,
    report_of offline (scenario_a None None) = Some r
    /\ (length (Report.per_browser r) <= 10)%nat
    /\ (length (Report.per_os r) <= 10)%nat
    /\ (length (Report.per_country r) <= 15)%nat
    /\ (length (Report.top_ips r) <= 20)%nat
    /\ (length (Report.recent_plays r) <= 200)%nat.
Proof.
  eexists. split; [vm_compute; reflexivity|].
  apply (report_caps offline (scenario_a None None)). vm_compute. reflexivity.
Defined.

(** C1, as stated, fails: two requests of the access log for the same
    song by the same address within one minute are both kept, so the
    plays at positions 0 and 1 have the same key. *)
Lemma dedup_invariant_counterexample :
  ~ (forall env fs, dedup_invariant (plays_of env fs)).
Proof.
  intros H.
  pose proof (H offline same_minute_twice 0%nat 1%nat) as H1.
  vm_compute in H1.
  eapply H1; [discriminate | reflexivity | reflexivity | reflexivity].
Qed.

Lemma dedup_of_added_plays_witness :
  log_file same_minute_twice = Some same_minute_lines
  /\ (exists added : list Triple,
         map triple_of (plays_of offline same_minute_twice)
           ≡ₚ map triple_of (primary_plays offline same_minute_lines) ++ added
         /\ NoDup added
         /\ (forall k, k ∈ added -> k ∉ map triple_of (primary_plays offline same_minute_lines)))
  /\ (forall (i j : nat) (p q : Play),
         i <> j ->
         plays_of offline same_minute_twice !! i = Some p ->
         plays_of offline same_minute_twice !! j = Some q ->
         triple_of p = triple_of q ->
         triple_of p ∈ map triple_of (primary_plays offline same_minute_lines)).
Proof.
  split; [reflexivity|].
  apply (dedup_of_added_plays offline same_minute_twice same_minute_lines).
  reflexivity.
Defined.

(** ** Scenario A *)

(** C2, as stated, fails: the song of an access-log play is the name in
    the path, which [NP_SONG_MAP] is never applied to, so [per_song] has
    no entry for [som-en-kokosnoed]. *)
Lemma scenario_a_counterexample :
  ~ (forall env geo out r,
        report_of env (scenario_a geo out) = Some r ->
        Report.total_plays r = 1%nat
        /\ get "som-en-kokosnoed" (Report.per_song r) = Some 1%nat
        /\ Report.total_listen_minutes r = 3.1%float).
Proof.
  intros H.
  destruct (H offline None None _
              (report_of_run offline (scenario_a None None) _ eq_refl))
    as (_ & Hsong & _).
  vm_compute in Hsong. discriminate.
Qed.

(** C2: in scenario A the report has [total_plays = 1], the play is
    counted under the name of the path, [per_song['kokosnoed'] = 1],
    with no entry for [som-en-kokosnoed], and
    [total_listen_minutes = 3.1]; the listening time is the one booked
    under the canonical name [som-en-kokosnoed]. *)
Theorem scenario_a_figures env geo out :
  exists r,
    report_of env (scenario_a geo out) = Some r
    /\ Report.total_plays r = 1%nat
    /\ Report.per_song r = [("kokosnoed", 1%nat)]
    /\ get "som-en-kokosnoed" (Report.per_song r) = None
    /\ Report.total_listen_minutes r = 3.1%float
    /\ Report.per_song_duration r = [("som-en-kokosnoed", 3.1%float)].
Proof.
  eexists. split.
  - apply (report_of_run env (scenario_a geo out) _ eq_refl).
  - cbv zeta. repeat split; vm_compute; reflexivity.
Qed.

(** ** Sessions of the heartbeat log *)

Lemma final_plays_length cache st : length (final_plays cache st) = length (plays st).
Proof.
  unfold final_plays, sort_plays.
  rewrite (Permutation_length (sorted_desc_perm _ _)). apply length_map.
Qed.





(** ** Private addresses *)

(** C4 at its failing input: the only address of the run is
    192.168.1.5, which is private.  No request is made, but
    [lookup_countries] returns before its last loop, the address gets no
    entry in the cache and the report shows it with ['Ukendt'] and an
    empty code, and with ['?'] in [top_ips]. *)
Lemma private_address_left_unknown service now :
  let env := mkEnv None service elements now in
  is_private_ip "192.168.1.5" = true
  /\ (main env private_only).2 = [Read LOG_FILE; Write GEO_CACHE_FILE; Write OUTPUT_FILE]
  /\ geo_cache_file (main env private_only).1 = Some (Some ∅)
  /\ exists r,
      report_of env private_only = Some r
      /\ map (fun p => (p_ip p, p_country p, p_cc p)) (Report.recent_plays r)
         = [("192.168.1.5", Some "Ukendt", Some "")]
      /\ Report.per_country r = [("Ukendt", 1%nat)]
      /\ Report.top_ips r = [Report.mkTopIp "192.168.1.5" 1 "?"].
Proof.
  cbv zeta. split; [reflexivity|]. split; [vm_compute; reflexivity|].
  split; [vm_compute; reflexivity|].
  eexists. split.
  - apply (report_of_run _ private_only _ eq_refl).
  - cbv zeta. repeat split; vm_compute; reflexivity.
Qed.

(** ** The peak hour *)

Lemma max_from_spec (l pre : list (Z * nat)) (b : Z * nat) (i : nat) :
  pre !! i = Some b ->
  (forall j kv, pre !! j = Some kv -> (kv.2 <= b.2)%nat) ->
  (forall j kv, (j < i)%nat -> pre !! j = Some kv -> (kv.2 < b.2)%nat) ->
  exists i' c,
    (pre ++ l) !! i' = Some (max_from b l, c)
    /\ (forall j kv, (pre ++ l) !! j = Some kv -> (kv.2 <= c)%nat)
    /\ (forall j kv, (j < i')%nat -> (pre ++ l) !! j = Some kv -> (kv.2 < c)%nat).
Proof.
  revert pre b i. induction l as [|kv l IH]; intros pre b i Hb Hle Hlt.
  - exists i, b.2. rewrite app_nil_r. simpl. destruct b as [k c]. auto.
  - simpl. replace (pre ++ kv :: l) with ((pre ++ [kv]) ++ l)
      by (rewrite <- app_assoc; reflexivity).
    destruct (Nat.ltb_spec b.2 kv.2) as [Hgt|Hngt].
    + apply (IH (pre ++ [kv]) kv (length pre)).
      * rewrite lookup_app_r, Nat.sub_diag by lia. reflexivity.
      * intros j x Hj. destruct (decide (j < length pre)%nat) as [Hlo|Hhi].
        -- rewrite lookup_app_l in Hj by exact Hlo. specialize (Hle j x Hj). lia.
        -- rewrite lookup_app_r in Hj by lia.
           destruct (j - length pre)%nat; simpl in Hj; [|discriminate].
           injection Hj as <-. lia.
      * intros j x Hlo Hj. rewrite lookup_app_l in Hj by exact Hlo.
        specialize (Hle j x Hj). lia.
    + apply (IH (pre ++ [kv]) b i).
      * apply lookup_app_l_Some. exact Hb.
      * intros j x Hj. destruct (decide (j < length pre)%nat) as [Hlo|Hhi].
        -- rewrite lookup_app_l in Hj by exact Hlo. eauto.
        -- rewrite lookup_app_r in Hj by lia.
           destruct (j - length pre)%nat; simpl in Hj; [|discriminate].
           injection Hj as <-. lia.
      * intros j x Hlo Hj. apply lookup_lt_Some in Hb.
        rewrite lookup_app_l in Hj by lia. eauto.
Qed.

Lemma max_key_spec (d : list (Z * nat)) (k : Z) :
  max_key d = Some k ->
  exists i c,
    d !! i = Some (k, c)
    /\ (forall j kv, d !! j = Some kv -> (kv.2 <= c)%nat)
    /\ (forall j kv, (j < i)%nat -> d !! j = Some kv -> (kv.2 < c)%nat).
Proof.
  destruct d as [|b l]; [discriminate|]. simpl. intros [= <-].
  apply (max_from_spec l [b] b 0%nat).
  - reflexivity.
  - intros [|j] kv Hj; simpl in Hj; [injection Hj as <-; lia | discriminate].
  - intros j kv Hlt. lia.
Qed.

(** C5: [peak_hour] is 0 when no play contributed an hour; otherwise it
    is a key of [hourly_activity] whose count is the largest, and every
    key that comes before it in the dictionary, that is every hour that
    was first counted earlier in the run, has a strictly smaller count:
    among tied hours the one encountered first wins, whatever its
    number. *)
Theorem peak_hour_first_maximum env fs lines r :
  log_file fs = Some lines ->
  report_of env fs = Some r ->
  let h := hourly_activity
             (t_stats (passes env lines (np_log_file fs) (track_log_file fs)).2) in
  (h = [] -> Report.peak_hour r = 0)
  /\ (h <> [] ->
      exists i c,
        h !! i = Some (Report.peak_hour r, c)
        /\ (forall j kv, h !! j = Some kv -> (kv.2 <= c)%nat)
        /\ (forall j kv, (j < i)%nat -> h !! j = Some kv -> (kv.2 < c)%nat)).
Proof.
  intros Hlog Hr. rewrite (report_of_run env fs lines Hlog) in Hr.
  cbv zeta in Hr. injection Hr as <-. cbv zeta.
  unfold build_report. cbn [Report.peak_hour].
  destruct (hourly_activity _) as [|b l] eqn:Hh.
  - split; [reflexivity|]. intros Hne. contradiction.
  - split; [discriminate|]. intros _.
    apply max_key_spec. reflexivity.
Qed.

Lemma peak_hour_first_maximum_witness :
  log_file ten_then_five = Some
    [access_line "1.2.3.4" "01/Jan/2024:10:00:05 +0000" "/audio/brormand.mp3";
     access_line "1.2.3.4" "01/Jan/2024:05:30:00 +0000" "/audio/brormand.mp3"]
  /\ exists r,
      report_of offline ten_then_five = Some r
      /\ Report.peak_hour r = 10
      /\ exists i c,
          [(10, 1%nat); (5, 1%nat)] !! i = Some (Report.peak_hour r, c)
          /\ (forall j kv, [(10, 1%nat); (5, 1%nat)] !! j = Some kv -> (kv.2 <= c)%nat)
          /\ (forall j kv, (j < i)%nat -> [(10, 1%nat); (5, 1%nat)] !! j = Some kv
                           -> (kv.2 < c)%nat).
Proof.
  split; [reflexivity|].
  eexists. split; [vm_compute; reflexivity|]. split; [reflexivity|].
  refine (proj2 (peak_hour_first_maximum offline ten_then_five _ _ eq_refl _) _).
  - vm_compute. reflexivity.
  - vm_compute. discriminate.
Defined.

(** C5, as stated, fails: a play at 10 o'clock followed by a play at 5
    o'clock ties the two hours, and [peak_hour] is 10, not 5. *)
Lemma peak_hour_counterexample :
  ~ (forall env fs lines r,
        log_file fs = Some lines ->
        report_of env fs = Some r ->
        forall k c,
          (k, c) ∈ hourly_activity
                     (t_stats (passes env lines (np_log_file fs) (track_log_file fs)).2) ->
          (forall kv,
              kv ∈ hourly_activity
                     (t_stats (passes env lines (np_log_file fs) (track_log_file fs)).2) ->
              (kv.2 <= c)%nat) ->
          Report.peak_hour r <= k).
Proof.
  intros H.
  pose proof (H offline ten_then_five _ _ eq_refl
                (report_of_run offline ten_then_five _ eq_refl) 5 1%nat) as H5.
  cbv zeta in H5.
  set (h := hourly_activity _) in H5.
  assert (Eh : h = [(10, 1%nat); (5, 1%nat)]) by (vm_compute; reflexivity).
  set (p := Report.peak_hour _) in H5.
  assert (Ep : p = 10) by (vm_compute; reflexivity).
  rewrite Eh, Ep in H5.
  assert (Hle : 10 <= 5); [|lia].
  apply H5.
  - right. left.
  - intros kv Hin. rewrite !elem_of_cons, elem_of_nil in Hin.
    destruct Hin as [->|[->|[]]]; simpl; lia.
Qed.

(** ** Timestamps of the heartbeat log *)

Lemma prefix_empty (s : string) : String.prefix "" s = true.
Proof. destruct s; reflexivity. Qed.

Lemma append_cons (c : ascii) (a b : string) :
  String c a +:+ b = String c (a +:+ b).
Proof. reflexivity. Qed.

Lemma append_nil (b : string) : "" +:+ b = b.
Proof. reflexivity. Qed.

Lemma append_assoc (a b c : string) : (a +:+ b) +:+ c = a +:+ (b +:+ c).
Proof.
  induction a as [|ch a IH]; [reflexivity|].
  rewrite !append_cons, IH. reflexivity.
Qed.

Lemma prefix_drop (p s : string) :
  String.prefix p s = true -> p +:+ PyStr.drop (String.length p) s = s.
Proof.
  revert s. induction p as [|a p IH]; intros s H.
  - destruct s; reflexivity.
  - destruct s as [|c s]; [discriminate|]. simpl in H.
    destruct (ascii_dec a c) as [->|]; [|discriminate].
    simpl. rewrite append_cons. f_equal. apply IH. exact H.
Qed.

(** Replacing a text by itself changes nothing. *)
Lemma replace_from_same (a : ascii) (old : string) :
  forall s k,
    PyStr.replace_from (String a old) (String a old) k s = PyStr.drop k s.
Proof.
  induction s as [|c s IH]; intros k.
  - destruct k; reflexivity.
  - destruct k as [|k]; cbn [PyStr.replace_from PyStr.drop]; [|apply IH].
    cbn [String.prefix]. destruct (ascii_dec a c) as [->|].
    + destruct (String.prefix old s) eqn:Hp.
      * rewrite IH. cbn [String.length]. rewrite Nat.sub_succ, Nat.sub_0_r.
        rewrite append_cons, (prefix_drop old s Hp). reflexivity.
      * rewrite IH. reflexivity.
    + rewrite IH. reflexivity.
Qed.

Lemma replace_same (old s : string) : old <> "" -> PyStr.replace old old s = s.
Proof.
  intros H. destruct old as [|a old]; [contradiction|].
  unfold PyStr.replace. rewrite replace_from_same. reflexivity.
Qed.

(** Replacing a single character distributes over concatenation. *)
Lemma replace_char_app (c : ascii) (new a b : string) :
  PyStr.replace (String c "") new (a +:+ b)
  = PyStr.replace (String c "") new a +:+ PyStr.replace (String c "") new b.
Proof.
  unfold PyStr.replace. induction a as [|d a IH]; [reflexivity|].
  rewrite append_cons. simpl. destruct (ascii_dec c d).
  - rewrite !prefix_empty, IH, append_assoc. reflexivity.
  - rewrite IH, append_cons. reflexivity.
Qed.



(** ** A failed GeoIP request *)

Lemma store_results_keeps (items : list (option GeoItem)) (cache : GeoCache) (ip : string) :
  is_Some (cache !! ip) -> is_Some ((store_results items cache).1 !! ip).
Proof.
  revert cache. induction items as [|[r|] items IH]; intros cache H; simpl; auto.
  apply IH. destruct (decide (default "" (r_query r) = ip)) as [->|Hne].
  - rewrite lookup_insert_eq. eauto.
  - rewrite lookup_insert_ne by exact Hne. exact H.
Qed.

Lemma request_keeps service i batch (cache : GeoCache) (ip : string) :
  is_Some (cache !! ip) -> is_Some ((request service i batch cache).1 !! ip).
Proof.
  intros H. unfold request. destruct (service i batch); [|exact H].
  apply store_results_keeps. exact H.
Qed.


Lemma mark_private_keeps (ips : list string) (cache : GeoCache) (ip : string) (e : GeoEntry) :
  cache !! ip = Some e -> mark_private ips cache !! ip = Some e.
Proof.
  intros H. unfold mark_private.
  apply (fold_left_invariant (fun c : GeoCache => c !! ip = Some e)); [exact H|].
  intros c x Hc. destruct (bool_decide (c !! x = None)) eqn:Hx; simpl; [|exact Hc].
  destruct (is_private_ip x); [|exact Hc].
  apply bool_decide_eq_true in Hx.
  rewrite lookup_insert_ne; [exact Hc|]. intros ->. congruence.
Qed.

(** The requests that run to their end are followed by the remaining
    ones. *)
Lemma run_batches_app service (done bs : list (list string)) i (cache cache1 : GeoCache) :
  run_ok service i done cache = Some cache1 ->
  run_batches service i (done ++ bs) cache =
    ((run_batches service (i + length done) bs cache1).1,
     ok_events done ++ (run_batches service (i + length done) bs cache1).2).
Proof.
  revert i cache. induction done as [|b done IH]; intros i cache Hok; simpl in Hok.
  - injection Hok as <-. simpl. rewrite Nat.add_0_r.
    destruct (run_batches service i bs cache); reflexivity.
  - simpl. destruct (request service i b cache) as [c [|]]; [|discriminate].
    rewrite (IH (S i) c Hok). simpl.
    replace (i + S (length done))%nat with (S i + length done)%nat by lia.
    reflexivity.
Qed.


Lemma final_plays_from (cache : GeoCache) (st : Stats) (p : Play) :
  p ∈ final_plays cache st -> exists p0, p0 ∈ plays st /\ p = with_country cache p0.
Proof.
  unfold final_plays, sort_plays. rewrite sorted_desc_perm.
  intros H. apply list_elem_of_fmap in H as (p0 & -> & H0). eauto.
Qed.




(** ** An access-log time that does not parse *)





(** ** More on the GeoIP resolver *)

Lemma requested_ok_events (bs : list (list string)) : requested (ok_events bs) = bs.
Proof.
  unfold requested, ok_events. induction bs as [|b bs IH]; [reflexivity|].
  simpl. f_equal. exact IH.
Qed.

Lemma requested_app (a b : list Event) : requested (a ++ b) = requested a ++ requested b.
Proof. unfold requested. apply omap_app. Qed.

(** The requests of the loop are the first batches, in order. *)
Lemma run_batches_requests service (bs : list (list string)) i (cache : GeoCache) :
  requested (run_batches service i bs cache).2 `prefix_of` bs.
Proof.
  revert i cache. induction bs as [|b bs IH]; intros i cache; simpl.
  - reflexivity.
  - destruct (request service i b cache) as [c [|]].
    + specialize (IH (S i) c). destruct (run_batches service (S i) bs c) as [c' ev].
      simpl in *. apply prefix_cons. exact IH.
    + simpl. exists bs. reflexivity.
Qed.

Lemma take_plus_take {A} (l : list A) (n m : nat) :
  take n l ++ take m (drop n l) = take (n + m) l.
Proof.
  revert l. induction n as [|n IH]; intros l; [reflexivity|].
  destruct l as [|x l]; simpl; [destruct m; reflexivity|].
  f_equal. apply IH.
Qed.

Lemma concat_chunks {A} (l : list A) (k n : nat) :
  concat (map (fun i => take k (drop (k * i) l)) (seq 0 n)) = take (k * n) l.
Proof.
  induction n as [|n IH].
  - rewrite Nat.mul_0_r. reflexivity.
  - rewrite seq_S, map_app, concat_app, IH. simpl. rewrite app_nil_r.
    rewrite take_plus_take. f_equal. lia.
Qed.

Lemma chunks_cover (n : nat) : (n <= 100 * ((n + 99) / 100))%nat.
Proof.
  pose proof (Nat.div_mod_eq (n + 99) 100) as Hd.
  pose proof (Nat.mod_upper_bound (n + 99) 100 ltac:(lia)) as Hm.
  lia.
Qed.

Lemma chunk_starts_inside (n i : nat) : (i < (n + 99) / 100)%nat -> (100 * i < n)%nat.
Proof.
  intros H.
  pose proof (Nat.div_mod_eq (n + 99) 100) as Hd.
  pose proof (Nat.mod_upper_bound (n + 99) 100 ltac:(lia)) as Hm.
  lia.
Qed.

(** The batches are consecutive pieces of the list. *)
Lemma concat_batches (l : list string) : concat (batches l) = l.
Proof.
  unfold batches. rewrite (concat_chunks l 100).
  apply take_ge, chunks_cover.
Qed.

Lemma batches_elem (l batch : list string) :
  batch ∈ batches l ->
  batch <> [] /\ (length batch <= 100)%nat /\ (forall x, x ∈ batch -> x ∈ l).
Proof.
  unfold batches. intros H.
  apply list_elem_of_fmap in H as (i & -> & Hi).
  apply elem_of_seq in Hi as [_ Hi]. simpl in Hi.
  assert (Hlt : (100 * i < length l)%nat) by (apply chunk_starts_inside; exact Hi).
  split; [|split].
  - intros Hnil.
    assert (Hz : length (take 100 (drop (100 * i) l)) = 0%nat) by (rewrite Hnil; reflexivity).
    rewrite length_take, length_drop in Hz. lia.
  - rewrite length_take. lia.
  - intros x Hx. apply (subseteq_take 100) in Hx.
    apply (subseteq_drop (100 * i)) in Hx. exact Hx.
Qed.

Lemma new_ips_elem (ips : list string) (cache : GeoCache) (ip : string) :
  ip ∈ new_ips ips cache ->
  ip ∈ ips /\ cache !! ip = None /\ is_private_ip ip = false.
Proof.
  unfold new_ips. intros H. apply list_elem_of_In, filter_In in H as [Hin Hf].
  apply andb_true_iff in Hf as [Hc Hp].
  apply bool_decide_eq_true in Hc. apply negb_true_iff in Hp.
  split; [apply list_elem_of_In; exact Hin|]. split; assumption.
Qed.

(** X1: every request of [lookup_countries] carries between 1 and 100
    addresses, each of them an address of the input that had no entry
    in the cache at the start and is not private: a private address, or
    an address that is already cached, is never sent to the service. *)
Theorem requests_are_new_public service ips (cache : GeoCache) batch :
  batch ∈ requested (lookup_countries service ips cache).2 ->
  batch <> [] /\ (length batch <= 100)%nat
  /\ (forall ip, ip ∈ batch ->
                 ip ∈ ips /\ cache !! ip = None /\ is_private_ip ip = false).
Proof.
  unfold lookup_countries. intros H.
  destruct (new_ips ips cache) as [|x xs] eqn:Hnew.
  - simpl in H. apply elem_of_nil in H. contradiction.
  - rewrite <- Hnew in H.
    pose proof (run_batches_requests service (batches (new_ips ips cache)) 0 cache) as Hpre.
    destruct (run_batches service 0 (batches (new_ips ips cache)) cache) as [c ev].
    simpl in H, Hpre.
    assert (Hb : batch ∈ batches (new_ips ips cache)).
    { destruct Hpre as [k ->]. apply elem_of_app. left. exact H. }
    apply batches_elem in Hb as (Hne & Hlen & Hsub).
    split; [exact Hne|]. split; [exact Hlen|].
    intros ip Hip. apply new_ips_elem. apply Hsub. exact Hip.
Qed.

Lemma requests_are_new_public_witness :
  ["8.8.8.8"] ∈ requested (lookup_countries (service offline) ["192.168.1.5"; "8.8.8.8"] ∅).2
  /\ ["8.8.8.8"] <> []
  /\ (length ["8.8.8.8"] <= 100)%nat
  /\ (forall ip, ip ∈ ["8.8.8.8"] ->
                 ip ∈ ["192.168.1.5"; "8.8.8.8"]
                 /\ (∅ : GeoCache) !! ip = None /\ is_private_ip ip = false).
Proof.
  assert (H : ["8.8.8.8"]
              ∈ requested (lookup_countries (service offline) ["192.168.1.5"; "8.8.8.8"] ∅).2)
    by (vm_compute; left).
  split; [exact H|].
  exact (requests_are_new_public (service offline) ["192.168.1.5"; "8.8.8.8"] ∅ ["8.8.8.8"] H).
Defined.

Lemma run_batches_ok service (bs : list (list string)) i (cache cache1 : GeoCache) :
  run_ok service i bs cache = Some cache1 ->
  run_batches service i bs cache = (cache1, ok_events bs).
Proof.
  intros Hok.
  pose proof (run_batches_app service bs [] i cache cache1 Hok) as H.
  rewrite !app_nil_r in H. exact H.
Qed.

(** X2: when every request runs to its end, the requests of
    [lookup_countries] put end to end are exactly the new addresses, in
    their order: each new address is sent once. *)
Theorem all_new_addresses_requested_once service ips (cache cache1 : GeoCache) :
  run_ok service 0 (batches (new_ips ips cache)) cache = Some cache1 ->
  concat (requested (lookup_countries service ips cache).2) = new_ips ips cache.
Proof.
  intros Hok. unfold lookup_countries.
  destruct (new_ips ips cache) as [|x xs] eqn:Hnew; [reflexivity|].
  rewrite <- Hnew in *.
  rewrite (run_batches_ok service _ 0 cache cache1 Hok). simpl.
  rewrite requested_ok_events. apply concat_batches.
Qed.

Lemma all_new_addresses_requested_once_witness :
  run_ok danish_service 0 (batches (new_ips ["8.8.8.8"; "192.168.1.5"; "1.1.1.1"] ∅)) ∅
    = Some (<["1.1.1.1" := mkGeoEntry (Some "Danmark") (Some "DK")]>
              (<["8.8.8.8" := mkGeoEntry (Some "Danmark") (Some "DK")]> ∅))
  /\ concat (requested
               (lookup_countries danish_service ["8.8.8.8"; "192.168.1.5"; "1.1.1.1"] ∅).2)
     = new_ips ["8.8.8.8"; "192.168.1.5"; "1.1.1.1"] ∅.
Proof.
  assert (H : run_ok danish_service 0
                (batches (new_ips ["8.8.8.8"; "192.168.1.5"; "1.1.1.1"] ∅)) ∅
              = Some (<["1.1.1.1" := mkGeoEntry (Some "Danmark") (Some "DK")]>
                        (<["8.8.8.8" := mkGeoEntry (Some "Danmark") (Some "DK")]> ∅)))
    by (vm_compute; reflexivity).
  split; [exact H|].
  exact (all_new_addresses_requested_once danish_service
           ["8.8.8.8"; "192.168.1.5"; "1.1.1.1"] ∅ _ H).
Defined.

Lemma run_batches_keeps service (bs : list (list string)) i (cache : GeoCache) (ip : string) :
  is_Some (cache !! ip) -> is_Some ((run_batches service i bs cache).1 !! ip).
Proof.
  revert i cache. induction bs as [|b bs IH]; intros i cache H; simpl; [exact H|].
  pose proof (request_keeps service i b cache ip H) as Hr.
  destruct (request service i b cache) as [c [|]]; simpl in Hr; [|exact Hr].
  specialize (IH (S i) c Hr).
  destruct (run_batches service (S i) bs c) as [c' ev]. exact IH.
Qed.

(** X3: [lookup_countries] never removes an address from the cache:
    an address that has an entry in the cache it is given has one in
    the cache it returns, whatever the service answers. *)
Theorem lookup_keeps_cached_addresses service ips (cache : GeoCache) (ip : string) :
  is_Some (cache !! ip) -> is_Some ((lookup_countries service ips cache).1 !! ip).
Proof.
  intros H. unfold lookup_countries.
  destruct (new_ips ips cache) as [|x xs]; [exact H|].
  pose proof (run_batches_keeps service (batches (x :: xs)) 0 cache ip H) as Hr.
  destruct (run_batches service 0 (batches (x :: xs)) cache) as [c ev].
  simpl in *. destruct Hr as [e He]. exists e. apply mark_private_keeps. exact He.
Qed.

Lemma lookup_keeps_cached_addresses_witness :
  is_Some ((<["9.9.9.9" := mkGeoEntry (Some "Sverige") (Some "SE")]> ∅ : GeoCache) !! "9.9.9.9")
  /\ is_Some ((lookup_countries danish_service ["8.8.8.8"; "9.9.9.9"]
                 (<["9.9.9.9" := mkGeoEntry (Some "Sverige") (Some "SE")]> ∅)).1 !! "9.9.9.9").
Proof.
  assert (H : is_Some ((<["9.9.9.9" := mkGeoEntry (Some "Sverige") (Some "SE")]> ∅ : GeoCache)
                         !! "9.9.9.9"))
    by (rewrite lookup_insert_eq; eauto).
  split; [exact H|].
  exact (lookup_keeps_cached_addresses danish_service ["8.8.8.8"; "9.9.9.9"] _ "9.9.9.9" H).
Defined.

Lemma mark_private_marks (ips : list string) (cache : GeoCache) (ip : string) :
  ip ∈ ips -> is_private_ip ip = true ->
  mark_private ips cache !! ip = Some (default local_entry (cache !! ip)).
Proof.
  revert cache. induction ips as [|x ips IH]; intros cache Hin Hpriv.
  - apply elem_of_nil in Hin. contradiction.
  - unfold mark_private. simpl. fold (mark_private ips).
    destruct (decide (ip = x)) as [<-|Hne].
    + rewrite Hpriv, andb_true_r.
      destruct (cache !! ip) as [e|] eqn:Hc.
      * rewrite bool_decide_eq_false_2 by congruence.
        apply mark_private_keeps. exact Hc.
      * rewrite bool_decide_eq_true_2 by reflexivity.
        apply mark_private_keeps. apply lookup_insert_eq.
    + apply elem_of_cons in Hin as [Heq|Hin]; [contradiction|].
      rewrite (IH _ Hin Hpriv). f_equal. f_equal.
      destruct (bool_decide (cache !! x = None) && is_private_ip x); [|reflexivity].
      apply lookup_insert_ne. congruence.
Qed.

(** X4: when at least one address is new, every private address of the
    input has an entry in the cache that [lookup_countries] returns:
    the entry it had after the requests if it had one, and the local
    entry ['Lokalt'], ['LO'] otherwise. *)
Theorem private_addresses_marked service ips (cache : GeoCache) (ip : string) :
  new_ips ips cache <> [] ->
  ip ∈ ips -> is_private_ip ip = true ->
  (lookup_countries service ips cache).1 !! ip
  = Some (default local_entry
            ((run_batches service 0 (batches (new_ips ips cache)) cache).1 !! ip)).
Proof.
  intros Hnew Hin Hpriv. unfold lookup_countries.
  destruct (new_ips ips cache) as [|x xs]; [contradiction|].
  destruct (run_batches service 0 (batches (x :: xs)) cache) as [c ev].
  simpl. apply mark_private_marks; assumption.
Qed.

Lemma private_addresses_marked_witness :
  new_ips ["8.8.8.8"; "192.168.1.5"] ∅ <> []
  /\ "192.168.1.5" ∈ ["8.8.8.8"; "192.168.1.5"]
  /\ is_private_ip "192.168.1.5" = true
  /\ (lookup_countries (service offline) ["8.8.8.8"; "192.168.1.5"] ∅).1 !! "192.168.1.5"
     = Some local_entry.
Proof.
  assert (H1 : new_ips ["8.8.8.8"; "192.168.1.5"] ∅ <> []) by (vm_compute; discriminate).
  assert (H2 : "192.168.1.5" ∈ ["8.8.8.8"; "192.168.1.5"]) by (right; left).
  split; [exact H1|]. split; [exact H2|]. split; [reflexivity|].
  exact (private_addresses_marked (service offline) ["8.8.8.8"; "192.168.1.5"] ∅
           "192.168.1.5" H1 H2 eq_refl).
Defined.

(** ** The track-event log *)

Lemma valid_song_canonical (song : string) :
  existsb (String.eqb song) VALID_SONGS = true -> np_song song ∈ canonical_songs.
Proof.
  intros H. apply existsb_exists in H as (x & Hx & Heq).
  apply String.eqb_eq in Heq. subst x.
  unfold canonical_songs. apply list_elem_of_fmap. exists song.
  split; [reflexivity|]. apply list_elem_of_In. exact Hx.
Qed.

(** X5: a line of the track log does one of three things.  It leaves
    the state as it is; or it books a duration [d] with [0 < d < 600]
    under a canonical song of the white list, in [total_listen_time]
    and [per_song_duration] alike, adding no play; or it adds exactly
    one play, of a canonical song of the white list, whose key was not
    yet known and is recorded, leaving the durations as they are. *)
Theorem track_step_outcomes pu st line :
  let st' := track_step pu st line in
  st' = st
  \/ (exists song d,
        (song ∈ canonical_songs)
        /\ PrimFloat.ltb 0 d = true /\ PrimFloat.ltb d 600 = true
        /\ total_listen_time st' = PrimFloat.add (total_listen_time st) d
        /\ per_song_duration st'
           = update (fun v => PrimFloat.add v d) 0%float song (per_song_duration st)
        /\ t_stats st' = t_stats st /\ t_known st' = t_known st
        /\ track_plays_added st' = track_plays_added st)
  \/ (exists p,
        plays (t_stats st') = plays (t_stats st) ++ [p]
        /\ p_s p ∈ canonical_songs
        /\ (triple_of p ∉ t_known st)
        /\ t_known st' = {[ triple_of p ]} ∪ t_known st
        /\ track_plays_added st' = S (track_plays_added st)
        /\ total_listen_time st' = total_listen_time st
        /\ per_song_duration st' = per_song_duration st).
Proof.
  cbv zeta. unfold track_step.
  destruct (PyStr.split "|" (PyStr.strip line)) as [|p0 [|p1 [|p2 [|p3 [|p4 rest]]]]];
    try (left; reflexivity).
  destruct (PyStr.is_empty (PyStr.strip p3) || String.eqb (PyStr.strip p3) "-"
            || negb (existsb (String.eqb (PyStr.strip p3)) VALID_SONGS)) eqn:Hsong;
    [left; reflexivity|].
  apply orb_false_iff in Hsong as [_ Hvalid]. apply negb_false_iff in Hvalid.
  apply valid_song_canonical in Hvalid.
  destruct (bot_search _); [left; reflexivity|].
  destruct (negb (String.eqb (PyStr.strip p2) "play")).
  - destruct (existsb _ _); [|left; reflexivity].
    unfold add_duration.
    destruct (PyFloat.float (PyStr.strip p4)) as [d|]; [|left; reflexivity].
    destruct (PyFloat.between 0 d 600) eqn:Hd; [|left; reflexivity].
    apply andb_true_iff in Hd as [Hlo Hhi].
    right. left. exists (np_song (PyStr.strip p3)), d. simpl.
    repeat split; assumption.
  - destruct (track_timestamp _) as [ts|]; [|left; reflexivity].
    destruct (decide _) as [Hin|Hnin]; [left; reflexivity|].
    right. right. eexists. simpl. repeat split; try reflexivity; assumption.
Qed.

Lemma track_step_plays pu st line :
  (t_stats (track_step pu st line) = t_stats st
   /\ track_plays_added (track_step pu st line) = track_plays_added st)
  \/ (exists p,
        plays (t_stats (track_step pu st line)) = plays (t_stats st) ++ [p]
        /\ p_s p ∈ canonical_songs
        /\ track_plays_added (track_step pu st line) = S (track_plays_added st)).
Proof.
  unfold track_step.
  destruct (PyStr.split "|" (PyStr.strip line)) as [|p0 [|p1 [|p2 [|p3 [|p4 rest]]]]];
    try (left; split; reflexivity).
  destruct (PyStr.is_empty (PyStr.strip p3) || String.eqb (PyStr.strip p3) "-"
            || negb (existsb (String.eqb (PyStr.strip p3)) VALID_SONGS)) eqn:Hsong;
    [left; split; reflexivity|].
  apply orb_false_iff in Hsong as [_ Hvalid]. apply negb_false_iff in Hvalid.
  apply valid_song_canonical in Hvalid.
  destruct (bot_search _); [left; split; reflexivity|].
  destruct (negb (String.eqb (PyStr.strip p2) "play")).
  - left. destruct (existsb _ _); [|split; reflexivity].
    unfold add_duration.
    destruct (PyFloat.float (PyStr.strip p4)) as [d|]; [|split; reflexivity].
    destruct (PyFloat.between 0 d 600); split; reflexivity.
  - destruct (track_timestamp _) as [ts|]; [|left; split; reflexivity].
    destruct (decide _) as [Hin|Hnin]; [left; split; reflexivity|].
    right. eexists. simpl. repeat split; try reflexivity; assumption.
Qed.

(** X6: the track pass only appends plays: [plays] after the pass is
    [plays] before it followed by [track_plays_added] plays, each of a
    canonical song of the white list. *)
Theorem track_pass_adds_valid_songs pu lines known st :
  let tr := track_pass pu lines known st in
  exists added,
    plays (t_stats tr) = plays st ++ added
    /\ length added = track_plays_added tr
    /\ Forall (fun p => p_s p ∈ canonical_songs) added.
Proof.
  cbv zeta. unfold track_pass.
  apply (fold_left_invariant
           (fun tr => exists added,
                plays (t_stats tr) = plays st ++ added
                /\ length added = track_plays_added tr
                /\ Forall (fun p => p_s p ∈ canonical_songs) added)).
  - exists []. simpl. rewrite app_nil_r. repeat split. constructor.
  - intros tr line (added & Hpl & Hlen & Hall).
    destruct (track_step_plays pu tr line) as [[Hst Hn]|(p & Hp & Hs & Hn)].
    + exists added. rewrite Hst, Hn. auto.
    + exists (added ++ [p]). rewrite Hp, Hpl, Hn, app_assoc, length_app. simpl.
      split; [reflexivity|]. split; [lia|].
      apply Forall_app. split; [exact Hall|]. constructor; [exact Hs|constructor].
Qed.

(** ** Song names *)

Lemma np_song_cases (song : string) :
  np_song song =
    if String.eqb "fars-kamp" song then "en-fars-kamp"
    else if String.eqb "stop-brian" song then "stop-saa-brian"
    else if String.eqb "kokosnoed" song then "som-en-kokosnoed"
    else song.
Proof.
  unfold np_song, NP_SONG_MAP. cbn [List.find fst snd].
  repeat (destruct (String.eqb _ song); [reflexivity|]). reflexivity.
Qed.

(** X7: normalizing a song name twice is the same as normalizing it
    once, and the white list is closed under normalization. *)
Theorem np_song_idempotent (song : string) :
  np_song (np_song song) = np_song song
  /\ (song ∈ VALID_SONGS -> np_song song ∈ VALID_SONGS).
Proof.
  split.
  - rewrite (np_song_cases song).
    destruct (String.eqb_spec "fars-kamp" song) as [<-|H1]; [reflexivity|].
    destruct (String.eqb_spec "stop-brian" song) as [<-|H2]; [reflexivity|].
    destruct (String.eqb_spec "kokosnoed" song) as [<-|H3]; [reflexivity|].
    rewrite (np_song_cases song).
    destruct (String.eqb_spec "fars-kamp" song); [contradiction|].
    destruct (String.eqb_spec "stop-brian" song); [contradiction|].
    destruct (String.eqb_spec "kokosnoed" song); [contradiction|].
    reflexivity.
  - intros H. unfold VALID_SONGS in H.
    repeat (apply elem_of_cons in H as [->|H];
            [apply list_elem_of_In; vm_compute; tauto|]).
    apply elem_of_nil in H. contradiction.
Qed.

Example track_lines_outcome :
  let tr := track_pass None track_lines ∅ empty_stats in
  map p_s (plays (t_stats tr)) = ["som-en-kokosnoed"]
  /\ track_plays_added tr = 1%nat
  /\ total_listen_time tr = 185%float
  /\ per_song_duration tr = [("som-en-kokosnoed", 185%float)].
Proof. vm_compute. repeat split. Qed.

(** ** Counters *)

Section CounterFacts.
Context {K : Type} `{EqDecision K}.

Lemma update_keys {V} (f : V -> V) (d : V) (k : K) (c : list (K * V)) :
  map fst (update f d k c)
  = map fst c ++ (if decide (k ∈ map fst c) then [] else [k]).
Proof.
  induction c as [|[k' v] c IH]; simpl.
  - destruct (decide (k ∈ [])) as [Hin|_]; [|reflexivity].
    apply elem_of_nil in Hin. contradiction.
  - destruct (decide (k = k')) as [->|Hne]; simpl.
    + destruct (decide (k' ∈ k' :: map fst c)) as [_|Hnin].
      * rewrite app_nil_r. reflexivity.
      * exfalso. apply Hnin. left.
    + rewrite IH. f_equal.
      destruct (decide (k ∈ map fst c)) as [Hin|Hnin],
               (decide (k ∈ k' :: map fst c)) as [Hin'|Hnin']; try reflexivity.
      * exfalso. apply Hnin'. right. exact Hin.
      * exfalso. apply elem_of_cons in Hin' as [?|?]; contradiction.
Qed.

Lemma update_keys_NoDup {V} (f : V -> V) (d : V) (k : K) (c : list (K * V)) :
  NoDup (map fst c) -> NoDup (map fst (update f d k c)).
Proof.
  intros H. rewrite update_keys.
  destruct (decide (k ∈ map fst c)) as [Hin|Hnin].
  - rewrite app_nil_r. exact H.
  - apply NoDup_app. split; [exact H|]. split; [|apply NoDup_singleton].
    intros x Hx Hx'. apply list_elem_of_singleton in Hx'. subst x. contradiction.
Qed.

Lemma total_update (g : nat -> nat) (n : nat) (k : K) (c : list (K * nat)) :
  (forall v, g v = v + n)%nat ->
  total (update g O k c) = (total c + n)%nat.
Proof.
  intros Hg. unfold total. induction c as [|[k' v] c IH]; simpl.
  - rewrite Hg. lia.
  - destruct (decide (k = k')); simpl; [rewrite Hg; lia|]. rewrite IH. lia.
Qed.

Lemma total_incr (k : K) (c : list (K * nat)) : total (incr k c) = S (total c).
Proof. unfold incr. rewrite (total_update S 1); [lia|]. intros v. lia. Qed.

Lemma incr_positive (k : K) (c : list (K * nat)) :
  Forall (fun kv => (1 <= kv.2)%nat) c -> Forall (fun kv => (1 <= kv.2)%nat) (incr k c).
Proof.
  unfold incr. induction c as [|[k' v] c IH]; intros H; simpl.
  - constructor; [simpl; lia|constructor].
  - apply Forall_cons in H as [Hv Hc].
    destruct (decide (k = k')); constructor; simpl in *; auto; lia.
Qed.

Lemma length_le_total (c : list (K * nat)) :
  Forall (fun kv => (1 <= kv.2)%nat) c -> (length c <= total c)%nat.
Proof.
  unfold total. induction 1 as [|kv c Hkv _ IH]; simpl; [lia|]. lia.
Qed.
End CounterFacts.

Lemma total_perm {K} (c c' : list (K * nat)) : c ≡ₚ c' -> total c = total c'.
Proof. intros H. unfold total. rewrite H. reflexivity. Qed.

Lemma total_take {K} (n : nat) (c : list (K * nat)) : (total (take n c) <= total c)%nat.
Proof.
  unfold total. revert n. induction c as [|kv c IH]; intros [|n]; simpl; try lia.
  specialize (IH n). lia.
Qed.

Lemma add_play_well_counted pu t ip song ua st :
  well_counted st -> well_counted (add_play pu t ip song ua st).
Proof.
  unfold well_counted. cbv zeta.
  intros (H1 & H2 & H3 & H4 & H5 & H6 & Hh & Hhk).
  assert (Hok : forall (k : string) (c : list (string * nat)),
             total c = length (plays st) /\ NoDup (map fst c)
             /\ Forall (fun kv => (1 <= kv.2)%nat) c ->
             total (incr k c) = length (plays (add_play pu t ip song ua st))
             /\ NoDup (map fst (incr k c))
             /\ Forall (fun kv => (1 <= kv.2)%nat) (incr k c)).
  { intros k c (Ht & Hn & Hp). cbn [add_play plays].
    rewrite total_incr, Ht, length_app. cbn [length].
    split; [lia|]. split; [apply update_keys_NoDup; exact Hn|apply incr_positive; exact Hp]. }
  cbn [per_song per_ip per_day per_browser per_os per_device hourly_activity add_play].
  repeat (split; [apply Hok; assumption|]).
  unfold count_hour. cbn [plays add_play]. rewrite length_app. cbn [length].
  destruct (PyStr.int _) as [h|].
  - rewrite total_incr. split; [lia|]. apply update_keys_NoDup. exact Hhk.
  - split; [lia|exact Hhk].
Qed.

(** Every step of the three passes leaves the statistics as they are or
    records one play. *)
Lemma primary_step_stats pu st line :
  stats (primary_step pu st line) = stats st
  \/ exists t ip song ua,
      stats (primary_step pu st line) = add_play pu t ip song ua (stats st).
Proof.
  unfold primary_step. destruct line as [m|]; [|left; reflexivity].
  destruct (bot_search _); [left; reflexivity|].
  destruct (String.eqb (m_method m) "GET" && String.eqb (m_path m) "/" && (m_status m =? 200));
    (destruct (negb (String.eqb (m_method m) "GET") || negb (is_play_status (m_status m)));
     [left; reflexivity|]);
    (destruct (parse_song_name (m_path m)) as [song|]; [|left; reflexivity]);
    (destruct (PyStr.is_empty song || PyStr.contains "-art" song); [left; reflexivity|]);
    right; simpl; eauto.
Qed.

(** An induction principle for the statistics of a run: what holds for
    the empty statistics and is kept by recording a play holds after
    the three passes. *)
Lemma passes_stats_ind (P : Stats -> Prop) env lines np track :
  P empty_stats ->
  (forall t ip song ua st, P st -> P (add_play (parse_ua env) t ip song ua st)) ->
  P (t_stats (passes env lines np track).2).
Proof.
  intros H0 Hadd. unfold passes. cbn [snd].
  assert (Hpr : P (stats (primary_pass (parse_ua env) lines))).
  { unfold primary_pass.
    apply (fold_left_invariant (fun s => P (stats s))); [exact H0|].
    intros s line Hs.
    destruct (primary_step_stats (parse_ua env) s line) as [->|(t & ip & song & ua & ->)]; auto. }
  set (pr := primary_pass (parse_ua env) lines) in *.
  assert (Hnp : P (match np with
                   | Some ls => np_pass (parse_ua env) ls (known_of (plays (stats pr)), stats pr)
                   | None => (known_of (plays (stats pr)), stats pr)
                   end).2).
  { destruct np as [ls|]; [|exact Hpr]. unfold np_pass.
    apply (fold_left_invariant (fun s : gset Triple * Stats => P s.2)); [exact Hpr|].
    intros [known s] e Hs. unfold np_add_step. simpl in *.
    destruct (decide _); simpl; auto. }
  destruct track as [ls|]; [|exact Hnp]. unfold track_pass.
  apply (fold_left_invariant (fun s => P (t_stats s))); [exact Hnp|].
  intros s line Hs. unfold track_step.
  destruct (PyStr.split "|" (PyStr.strip line)) as [|p0 [|p1 [|p2 [|p3 [|p4 rest]]]]];
    try exact Hs.
  destruct (_ || _); [exact Hs|].
  destruct (bot_search _); [exact Hs|].
  destruct (negb _).
  - destruct (existsb _ _); [|exact Hs].
    destruct (add_duration_state (np_song (PyStr.strip p3)) (PyStr.strip p4) s) as [_ ->].
    exact Hs.
  - destruct (track_timestamp _); [|exact Hs].
    destruct (decide _); [exact Hs|]. simpl. auto.
Qed.

Lemma passes_well_counted env lines np track :
  well_counted (t_stats (passes env lines np track).2).
Proof.
  apply passes_stats_ind.
  - unfold well_counted, empty_stats, total. simpl.
    repeat split; try constructor; lia.
  - intros. apply add_play_well_counted. assumption.
Qed.

Lemma count_countries_total (cache : GeoCache) (c : list (string * nat)) :
  total (count_countries cache c) = total c.
Proof.
  unfold count_countries.
  assert (H : forall acc, total (fold_left
              (fun pc kv => update (fun v => (v + kv.2)%nat) O (country_of cache kv.1 "Ukendt") pc)
              c acc) = (total acc + total c)%nat).
  { induction c as [|kv c IH]; intros acc; simpl.
    - unfold total at 3. simpl. lia.
    - rewrite IH, (total_update _ kv.2) by reflexivity.
      unfold total at 4. simpl. fold (total c). lia. }
  rewrite H. unfold total at 1. simpl. reflexivity.
Qed.

Lemma count_countries_keys (cache : GeoCache) (c : list (string * nat)) :
  NoDup (map fst (count_countries cache c)).
Proof.
  unfold count_countries.
  apply (fold_left_invariant (fun pc : list (string * nat) => NoDup (map fst pc))).
  - constructor.
  - intros pc kv H. apply update_keys_NoDup. exact H.
Qed.

(** X8: in every report the counts of [per_song], of [per_day] and of
    [per_device] each add up to [total_plays]; the counts of the capped
    tables [per_browser], [per_os] and [per_country] add up to at most
    [total_plays]; and [unique_listeners] is at most [total_plays]. *)
Theorem report_totals env fs r :
  report_of env fs = Some r ->
  total (Report.per_song r) = Report.total_plays r
  /\ total (Report.per_day r) = Report.total_plays r
  /\ total (Report.per_device r) = Report.total_plays r
  /\ (total (Report.per_browser r) <= Report.total_plays r)%nat
  /\ (total (Report.per_os r) <= Report.total_plays r)%nat
  /\ (total (Report.per_country r) <= Report.total_plays r)%nat
  /\ (Report.unique_listeners r <= Report.total_plays r)%nat.
Proof.
  intros Hr. apply report_of_inv in Hr as (lines & cache & pr & tr & _ & Hp & _ & ->).
  pose proof (passes_well_counted env lines (np_log_file fs) (track_log_file fs)) as Hw.
  rewrite Hp in Hw. cbn [snd] in Hw. unfold well_counted in Hw. cbv zeta in Hw.
  destruct Hw as ((S1 & _ & _) & (I1 & _ & I3) & (D1 & _ & _) & (B1 & _ & _)
                  & (O1 & _ & _) & (V1 & _ & _) & _).
  unfold build_report.
  cbn [Report.per_song Report.per_day Report.per_device Report.per_browser Report.per_os
       Report.per_country Report.unique_listeners Report.total_plays].
  rewrite final_plays_length.
  rewrite (total_perm _ _ (sorted_desc_perm by_count (per_song (t_stats tr)))).
  rewrite (total_perm _ _ (sorted_asc_perm _ (per_day (t_stats tr)))).
  rewrite (total_perm _ _ (sorted_desc_perm by_count (per_device (t_stats tr)))).
  repeat split; try assumption.
  - etransitivity; [apply total_take|].
    rewrite (total_perm _ _ (sorted_desc_perm by_count _)). lia.
  - etransitivity; [apply total_take|].
    rewrite (total_perm _ _ (sorted_desc_perm by_count _)). lia.
  - etransitivity; [apply total_take|].
    rewrite (total_perm _ _ (sorted_desc_perm by_count _)), count_countries_total. lia.
  - rewrite <- I1. apply length_le_total. exact I3.
Qed.

Lemma report_totals_witness :
  exists r,
    report_of offline (scenario_a None None) = Some r
    /\ total (Report.per_song r) = Report.total_plays r
    /\ total (Report.per_day r) = Report.total_plays r
    /\ total (Report.per_device r) = Report.total_plays r
    /\ (total (Report.per_browser r) <= Report.total_plays r)%nat
    /\ (total (Report.per_os r) <= Report.total_plays r)%nat
    /\ (total (Report.per_country r) <= Report.total_plays r)%nat
    /\ (Report.unique_listeners r <= Report.total_plays r)%nat.
Proof.
  eexists. split; [vm_compute; reflexivity|].
  apply (report_totals offline (scenario_a None None)). vm_compute. reflexivity.
Defined.

Lemma NoDup_take_keys {K V} (n : nat) (c : list (K * V)) :
  NoDup (map fst c) -> NoDup (map fst (take n c)).
Proof.
  intros H. rewrite <- (take_drop n c), map_app in H.
  apply NoDup_app in H. tauto.
Qed.

Lemma NoDup_keys_perm {K V} (c c' : list (K * V)) :
  c ≡ₚ c' -> NoDup (map fst c') -> NoDup (map fst c).
Proof. intros H. rewrite H. auto. Qed.

(** X9: in every report the keys of each table are pairwise different,
    and so are the addresses of [top_ips]. *)
Theorem report_keys_distinct env fs r :
  report_of env fs = Some r ->
  NoDup (map fst (Report.per_song r))
  /\ NoDup (map fst (Report.per_day r))
  /\ NoDup (map fst (Report.per_device r))
  /\ NoDup (map fst (Report.per_browser r))
  /\ NoDup (map fst (Report.per_os r))
  /\ NoDup (map fst (Report.per_country r))
  /\ NoDup (map Report.ip (Report.top_ips r))
  /\ NoDup (map fst (Report.hourly_activity r)).
Proof.
  intros Hr. apply report_of_inv in Hr as (lines & cache & pr & tr & _ & Hp & _ & ->).
  pose proof (passes_well_counted env lines (np_log_file fs) (track_log_file fs)) as Hw.
  rewrite Hp in Hw. cbn [snd] in Hw. unfold well_counted in Hw. cbv zeta in Hw.
  destruct Hw as ((_ & S2 & _) & (_ & I2 & _) & (_ & D2 & _) & (_ & B2 & _)
                  & (_ & O2 & _) & (_ & V2 & _) & _).
  unfold build_report.
  cbn [Report.per_song Report.per_day Report.per_device Report.per_browser Report.per_os
       Report.per_country Report.top_ips Report.hourly_activity].
  repeat split.
  - apply (NoDup_keys_perm _ _ (sorted_desc_perm by_count _)). exact S2.
  - apply (NoDup_keys_perm _ _ (sorted_asc_perm _ _)). exact D2.
  - apply (NoDup_keys_perm _ _ (sorted_desc_perm by_count _)). exact V2.
  - apply NoDup_take_keys, (NoDup_keys_perm _ _ (sorted_desc_perm by_count _)). exact B2.
  - apply NoDup_take_keys, (NoDup_keys_perm _ _ (sorted_desc_perm by_count _)). exact O2.
  - apply NoDup_take_keys, (NoDup_keys_perm _ _ (sorted_desc_perm by_count _)).
    apply count_countries_keys.
  - rewrite map_map. cbn [Report.ip].
    apply (NoDup_take_keys 20), (NoDup_keys_perm _ _ (sorted_desc_perm by_count _)).
    exact I2.
  - rewrite map_map. cbn [fst].
    apply (bool_decide_unpack (NoDup (map PyStr.of_nat (seq 0 24)))). vm_compute. exact I.
Qed.

Lemma report_keys_distinct_witness :
  exists r,
    report_of offline (scenario_a None None) = Some r
    /\ NoDup (map fst (Report.per_song r))
    /\ NoDup (map fst (Report.per_day r))
    /\ NoDup (map fst (Report.per_device r))
    /\ NoDup (map fst (Report.per_browser r))
    /\ NoDup (map fst (Report.per_os r))
    /\ NoDup (map fst (Report.per_country r))
    /\ NoDup (map Report.ip (Report.top_ips r))
    /\ NoDup (map fst (Report.hourly_activity r)).
Proof.
  eexists. split; [vm_compute; reflexivity|].
  apply (report_keys_distinct offline (scenario_a None None)). vm_compute. reflexivity.
Defined.

(** ** The order of the tables *)

Section SortedFacts.
Context {A : Type} (le : A -> A -> bool).
Hypothesis le_total : forall a b, le a b = true \/ le b a = true.
Hypothesis le_trans : forall a b c, le a b = true -> le b c = true -> le a c = true.

Lemma insert_desc_sorted (x : A) (l : list A) :
  StronglySorted (fun a b => le b a = true) l ->
  StronglySorted (fun a b => le b a = true) (insert_desc le x l).
Proof.
  induction 1 as [|y l Hs IH Hy]; simpl.
  - constructor; constructor.
  - destruct (le y x) eqn:Hyx.
    + constructor; [constructor; assumption|].
      constructor; [exact Hyx|].
      eapply Forall_impl; [exact Hy|]. intros z Hz. simpl in Hz. eauto.
    + constructor; [exact IH|].
      rewrite (insert_desc_perm le x l). constructor; [|exact Hy].
      destruct (le_total x y) as [H|H]; [exact H|congruence].
Qed.

Lemma sorted_desc_sorted (l : list A) :
  StronglySorted (fun a b => le b a = true) (sorted_desc le l).
Proof.
  induction l as [|x l IH]; simpl; [constructor|].
  apply insert_desc_sorted. exact IH.
Qed.

Lemma insert_asc_sorted (x : A) (l : list A) :
  StronglySorted (fun a b => le a b = true) l ->
  StronglySorted (fun a b => le a b = true) (insert_asc le x l).
Proof.
  induction 1 as [|y l Hs IH Hy]; simpl.
  - constructor; constructor.
  - destruct (le x y) eqn:Hxy.
    + constructor; [constructor; assumption|].
      constructor; [exact Hxy|].
      eapply Forall_impl; [exact Hy|]. intros z Hz. simpl in Hz. eauto.
    + constructor; [exact IH|].
      rewrite (insert_asc_perm le x l). constructor; [|exact Hy].
      destruct (le_total x y) as [H|H]; [congruence|exact H].
Qed.

Lemma sorted_asc_sorted (l : list A) :
  StronglySorted (fun a b => le a b = true) (sorted_asc le l).
Proof.
  induction l as [|x l IH]; simpl; [constructor|].
  apply insert_asc_sorted. exact IH.
Qed.
End SortedFacts.

Lemma StronglySorted_lookup {A} (R : A -> A -> Prop) (l : list A) :
  StronglySorted R l ->
  forall (i j : nat) (a b : A), (i < j)%nat -> l !! i = Some a -> l !! j = Some b -> R a b.
Proof.
  induction 1 as [|x l Hs IH Hx]; intros i j a b Hij Hi Hj.
  - rewrite lookup_nil in Hi. discriminate.
  - destruct j as [|j]; [lia|]. simpl in Hj. destruct i as [|i]; simpl in Hi.
    + injection Hi as <-. rewrite Forall_forall in Hx. apply Hx.
      apply list_elem_of_lookup. eauto.
    + apply (IH i j); [lia|assumption|assumption].
Qed.

Lemma descending_take {A} (le : A -> A -> bool) (n : nat) (l : list A) :
  descending le l -> descending le (take n l).
Proof.
  intros H i j a b Hij Hi Hj.
  apply lookup_take_Some in Hi as [Hi _]. apply lookup_take_Some in Hj as [Hj _].
  eauto.
Qed.

Lemma descending_sorted {A} (le : A -> A -> bool) (l : list A) :
  (forall a b, le a b = true \/ le b a = true) ->
  (forall a b c, le a b = true -> le b c = true -> le a c = true) ->
  descending le (sorted_desc le l).
Proof.
  intros Ht Hr. unfold descending.
  apply (StronglySorted_lookup (fun a b => le b a = true)).
  apply sorted_desc_sorted; assumption.
Qed.

Lemma by_count_total {K} (a b : K * nat) : by_count a b = true \/ by_count b a = true.
Proof.
  unfold by_count. destruct (Nat.leb_spec a.2 b.2), (Nat.leb_spec b.2 a.2); auto. lia.
Qed.

Lemma by_count_trans {K} (a b c : K * nat) :
  by_count a b = true -> by_count b c = true -> by_count a c = true.
Proof.
  unfold by_count. rewrite !Nat.leb_le. lia.
Qed.

Lemma ascii_compare_trans (a b c : ascii) :
  Ascii.compare a b <> Gt -> Ascii.compare b c <> Gt ->
  Ascii.compare a c <> Gt
  /\ (Ascii.compare a c = Eq -> Ascii.compare a b = Eq /\ Ascii.compare b c = Eq).
Proof.
  unfold Ascii.compare.
  destruct (N.compare_spec (N_of_ascii a) (N_of_ascii b)) as [E1|L1|G1];
    destruct (N.compare_spec (N_of_ascii b) (N_of_ascii c)) as [E2|L2|G2];
    intros H1 H2; try congruence.
  - rewrite E1, E2, N.compare_refl. split; [discriminate|auto].
  - rewrite E1. apply N.compare_lt_iff in L2. rewrite L2. split; discriminate.
  - rewrite <- E2. apply N.compare_lt_iff in L1. rewrite L1. split; discriminate.
  - assert (L : (N_of_ascii a < N_of_ascii c)%N) by lia.
    apply N.compare_lt_iff in L. rewrite L. split; discriminate.
Qed.

Lemma string_leb_trans (a b c : string) :
  String.leb a b = true -> String.leb b c = true -> String.leb a c = true.
Proof.
  unfold String.leb.
  assert (H : forall a b c, String.compare a b <> Gt -> String.compare b c <> Gt ->
                            String.compare a c <> Gt).
  { clear. induction a as [|x a IH]; intros [|y b] [|z c]; simpl; try congruence.
    intros H1 H2.
    destruct (ascii_compare_trans x y z) as [Hne Heq].
    - destruct (Ascii.compare x y); congruence.
    - destruct (Ascii.compare y z); congruence.
    - destruct (Ascii.compare x z) eqn:Hxz; [|discriminate|congruence].
      destruct (Heq eq_refl) as [Hxy Hyz]. rewrite Hxy in H1. rewrite Hyz in H2.
      eauto. }
  specialize (H a b c).
  destruct (String.compare a b), (String.compare b c), (String.compare a c);
    intros H1 H2; try reflexivity; try discriminate H1; try discriminate H2;
    exfalso; (apply H; [intros E; discriminate E|intros E; discriminate E|reflexivity]).
Qed.

(** X10: in every report [per_song], [per_device], [per_browser],
    [per_os], [per_country] and [top_ips] are in descending order of
    their counts, [per_day] is in ascending order of its keys, and
    [recent_plays] is in descending order of the timestamps. *)
Theorem report_order env fs r :
  report_of env fs = Some r ->
  descending by_count (Report.per_song r)
  /\ descending by_count (Report.per_device r)
  /\ descending by_count (Report.per_browser r)
  /\ descending by_count (Report.per_os r)
  /\ descending by_count (Report.per_country r)
  /\ descending (fun a b => (Report.plays a <=? Report.plays b)%nat) (Report.top_ips r)
  /\ ascending (fun a b => String.leb a.1 b.1) (Report.per_day r)
  /\ descending (fun a b => String.leb (p_t a) (p_t b)) (Report.recent_plays r).
Proof.
  intros Hr. apply report_of_inv in Hr as (lines & cache & pr & tr & _ & _ & _ & ->).
  unfold build_report.
  cbn [Report.per_song Report.per_day Report.per_device Report.per_browser Report.per_os
       Report.per_country Report.top_ips Report.recent_plays].
  assert (Hc : forall l : list (string * nat), descending by_count (sorted_desc by_count l))
    by (intros l; apply descending_sorted; [apply by_count_total|apply by_count_trans]).
  split; [apply Hc|]. split; [apply Hc|].
  split; [apply descending_take, Hc|]. split; [apply descending_take, Hc|].
  split; [apply descending_take, Hc|]. split; [|split].
  - intros i j a b Hij Hi Hj.
    rewrite list_lookup_fmap in Hi, Hj.
    destruct (take 20 (sorted_desc by_count (per_ip (t_stats tr))) !! i) as [x|] eqn:Hx;
      [|discriminate].
    destruct (take 20 (sorted_desc by_count (per_ip (t_stats tr))) !! j) as [y|] eqn:Hy;
      [|discriminate].
    simpl in Hi, Hj. injection Hi as <-. injection Hj as <-. cbn [Report.plays].
    apply (descending_take by_count 20 _ (Hc _) i j x y Hij Hx Hy).
  - unfold ascending.
    apply (StronglySorted_lookup (fun a b : string * nat => String.leb a.1 b.1 = true)).
    apply sorted_asc_sorted.
    + intros a b. apply String.leb_total.
    + intros a b c. apply string_leb_trans.
  - apply descending_take. unfold final_plays, sort_plays.
    apply descending_sorted.
    + intros a b. apply String.leb_total.
    + intros a b c. apply string_leb_trans.
Qed.

Lemma report_order_witness :
  exists r,
    report_of offline ten_then_five = Some r
    /\ descending by_count (Report.per_song r)
    /\ descending by_count (Report.per_device r)
    /\ descending by_count (Report.per_browser r)
    /\ descending by_count (Report.per_os r)
    /\ descending by_count (Report.per_country r)
    /\ descending (fun a b => (Report.plays a <=? Report.plays b)%nat) (Report.top_ips r)
    /\ ascending (fun a b => String.leb a.1 b.1) (Report.per_day r)
    /\ descending (fun a b => String.leb (p_t a) (p_t b)) (Report.recent_plays r).
Proof.
  eexists. split; [vm_compute; reflexivity|].
  apply (report_order offline ten_then_five). vm_compute. reflexivity.
Defined.

(** ** Page views *)

Lemma primary_step_visitors pu st line :
  (size (unique_page_ips st) <= page_views st)%nat ->
  (size (unique_page_ips (primary_step pu st line))
   <= page_views (primary_step pu st line))%nat.
Proof.
  intros H. unfold primary_step. destruct line as [m|]; [|exact H].
  destruct (bot_search _); [exact H|].
  assert (Hs : (size ({[ m_ip m ]} ∪ unique_page_ips st) <= S (page_views st))%nat).
  { rewrite size_union_alt, size_singleton.
    pose proof (subseteq_size (unique_page_ips st ∖ {[ m_ip m ]}) (unique_page_ips st)
                  ltac:(apply subseteq_difference_l; reflexivity)).
    lia. }
  destruct (String.eqb (m_method m) "GET" && String.eqb (m_path m) "/" && (m_status m =? 200));
    (destruct (negb (String.eqb (m_method m) "GET") || negb (is_play_status (m_status m)));
     [assumption|]);
    (destruct (parse_song_name (m_path m)) as [song|]; [|assumption]);
    (destruct (PyStr.is_empty song || PyStr.contains "-art" song); assumption).
Qed.

(** X11: in every report [unique_visitors] is at most [page_views]. *)
Theorem visitors_at_most_page_views env fs r :
  report_of env fs = Some r ->
  (Report.unique_visitors r <= Report.page_views r)%nat.
Proof.
  intros Hr. apply report_of_inv in Hr as (lines & cache & pr & tr & _ & Hp & _ & ->).
  unfold build_report. cbn [Report.unique_visitors Report.page_views].
  unfold passes in Hp. injection Hp as <- _.
  unfold primary_pass.
  apply (fold_left_invariant
           (fun s => (size (unique_page_ips s) <= page_views s)%nat)).
  - cbn [unique_page_ips page_views]. rewrite size_empty. lia.
  - intros s line Hs. apply primary_step_visitors. exact Hs.
Qed.

Lemma visitors_at_most_page_views_witness :
  exists r,
    report_of offline
      (access_log_only
         [Some (mkLogMatch "1.2.3.4" "01/Jan/2024:10:00:05 +0000" "GET" "/" 200 512 "-" "Mozilla/5.0");
          Some (mkLogMatch "1.2.3.4" "01/Jan/2024:10:02:00 +0000" "GET" "/" 200 512 "-" "Mozilla/5.0")])
    = Some r
    /\ Report.page_views r = 2%nat
    /\ (Report.unique_visitors r <= Report.page_views r)%nat.
Proof.
  eexists. split; [vm_compute; reflexivity|]. split; [reflexivity|].
  apply (visitors_at_most_page_views offline
           (access_log_only
              [Some (mkLogMatch "1.2.3.4" "01/Jan/2024:10:00:05 +0000" "GET" "/" 200 512 "-" "Mozilla/5.0");
               Some (mkLogMatch "1.2.3.4" "01/Jan/2024:10:02:00 +0000" "GET" "/" 200 512 "-" "Mozilla/5.0")])).
  vm_compute. reflexivity.
Defined.

(** ** The song of an audio path *)

Lemma longest_before_mp3 (p : string) :
  all_chars not_newline p = true ->
  longest_before ".mp3" (p +:+ ".mp3") = Some p.
Proof.
  induction p as [|c p IH]; intros Hp.
  - reflexivity.
  - simpl in Hp. apply andb_true_iff in Hp as [Hc Hp].
    unfold not_newline in Hc. apply negb_true_iff in Hc.
    rewrite append_cons. cbn [longest_before]. rewrite Hc, (IH Hp). reflexivity.
Qed.

(** X12: the song of the path [/audio/<name>.mp3] is [<name>], for
    every non-empty name without a newline, whatever else the name
    contains (a dot, a slash, [.mp3] itself). *)
Theorem parse_song_name_of_audio_path (name : string) :
  name <> "" ->
  all_chars not_newline name = true ->
  parse_song_name ("/audio/" +:+ name +:+ ".mp3") = Some name.
Proof.
  intros Hne Hnl. destruct name as [|c name]; [contradiction|].
  simpl in Hnl. apply andb_true_iff in Hnl as [Hc Hnl].
  unfold not_newline in Hc. apply negb_true_iff in Hc.
  change (parse_song_name ("/audio/" +:+ String c name +:+ ".mp3"))
    with (if Ascii.eqb c newline then None
          else option_map (String c) (longest_before ".mp3" (name +:+ ".mp3"))).
  rewrite Hc, (longest_before_mp3 name Hnl). reflexivity.
Qed.

Lemma parse_song_name_of_audio_path_witness :
  "a.mp3/b" <> ""
  /\ all_chars not_newline "a.mp3/b" = true
  /\ parse_song_name ("/audio/" +:+ "a.mp3/b" +:+ ".mp3") = Some "a.mp3/b".
Proof.
  assert (H : "a.mp3/b" <> "") by discriminate.
  split; [exact H|]. split; [reflexivity|].
  exact (parse_song_name_of_audio_path "a.mp3/b" H eq_refl).
Defined.

(** ** The hours of the report *)



(** ** Timestamps written and read back *)

Lemma digit_char_spec (d : Z) :
  PyStr.is_digit (PyStr.digit_char d) = true
  /\ PyStr.digit_val (PyStr.digit_char d) = d mod 10.
Proof.
  unfold PyStr.digit_char.
  pose proof (Z.mod_pos_bound d 10 ltac:(lia)) as Hb.
  remember (d mod 10) as r eqn:Hr. clear Hr.
  assert (Hc : r = 0 \/ r = 1 \/ r = 2 \/ r = 3 \/ r = 4 \/ r = 5 \/ r = 6 \/ r = 7
               \/ r = 8 \/ r = 9) by lia.
  repeat (destruct Hc as [->|Hc]; [split; reflexivity|]). subst r. split; reflexivity.
Qed.

Lemma digits_snoc (w : nat) :
  forall acc s,
    PyStr.digits (S w) acc s =
      match PyStr.digits w acc s with
      | Some (v, String c r) =>
          if PyStr.is_digit c then Some (10 * v + PyStr.digit_val c, r) else None
      | _ => None
      end.
Proof.
  induction w as [|w IH]; intros acc s.
  - simpl. destruct s as [|c s]; [reflexivity|]. destruct (PyStr.is_digit c); reflexivity.
  - change (PyStr.digits (S (S w)) acc s)
      with (match s with
            | String c s' =>
                if PyStr.is_digit c
                then PyStr.digits (S w) (10 * acc + PyStr.digit_val c) s' else None
            | EmptyString => None
            end).
    change (PyStr.digits (S w) acc s)
      with (match s with
            | String c s' =>
                if PyStr.is_digit c
                then PyStr.digits w (10 * acc + PyStr.digit_val c) s' else None
            | EmptyString => None
            end).
    destruct s as [|c s]; [reflexivity|].
    destruct (PyStr.is_digit c); [|reflexivity]. apply IH.
Qed.

Lemma zfill_S (w : nat) (n : Z) :
  PyStr.zfill (S w) n = PyStr.zfill w (n / 10) +:+ String (PyStr.digit_char n) "".
Proof. reflexivity. Qed.

(** Reading back a number printed on [w] digits. *)
Lemma digits_zfill (w : nat) :
  forall n acc rest,
    0 <= n < 10 ^ Z.of_nat w ->
    PyStr.digits w acc (PyStr.zfill w n +:+ rest) = Some (acc * 10 ^ Z.of_nat w + n, rest).
Proof.
  induction w as [|w IH]; intros n acc rest Hn.
  - simpl in *. rewrite append_nil. f_equal. f_equal. lia.
  - rewrite digits_snoc, zfill_S, append_assoc, append_cons, append_nil.
    rewrite Nat2Z.inj_succ, Z.pow_succ_r in * by lia.
    rewrite IH by (split; [apply Z.div_pos; lia | apply Z.div_lt_upper_bound; lia]).
    destruct (digit_char_spec n) as [-> ->].
    f_equal. f_equal. pose proof (Z.div_mod n 10 ltac:(lia)). lia.
Qed.

Lemma number_zfill (w : nat) (n : Z) :
  0 <= n < 10 ^ Z.of_nat w -> PyStr.number w (PyStr.zfill w n) = Some n.
Proof.
  intros Hn. unfold PyStr.number.
  pose proof (digits_zfill w n 0 "" Hn) as H.
  replace (PyStr.zfill w n +:+ "") with (PyStr.zfill w n) in H.
  - rewrite H. reflexivity.
  - clear. induction (PyStr.zfill w n) as [|c s IH]; [reflexivity|].
    rewrite append_cons, <- IH. reflexivity.
Qed.

Lemma length_append (a b : string) :
  String.length (a +:+ b) = (String.length a + String.length b)%nat.
Proof.
  induction a as [|c a IH]; [reflexivity|].
  rewrite append_cons. simpl. rewrite IH. reflexivity.
Qed.

Lemma zfill_length (w : nat) (n : Z) : String.length (PyStr.zfill w n) = w.
Proof.
  revert n. induction w as [|w IH]; intros n; [reflexivity|].
  rewrite zfill_S, length_append, IH. simpl. lia.
Qed.

Lemma all_chars_app (P : ascii -> bool) (a b : string) :
  all_chars P (a +:+ b) = all_chars P a && all_chars P b.
Proof.
  induction a as [|c a IH]; [reflexivity|].
  rewrite append_cons. simpl. rewrite IH, andb_assoc. reflexivity.
Qed.

Lemma all_chars_impl (P Q : ascii -> bool) (s : string) :
  (forall c, P c = true -> Q c = true) -> all_chars P s = true -> all_chars Q s = true.
Proof.
  intros H. induction s as [|c s IH]; [reflexivity|]. simpl.
  rewrite !andb_true_iff. intros [Hc Hs]. auto.
Qed.

Lemma zfill_digits (w : nat) (n : Z) : all_chars PyStr.is_digit (PyStr.zfill w n) = true.
Proof.
  revert n. induction w as [|w IH]; intros n; [reflexivity|].
  rewrite zfill_S, all_chars_app, IH. simpl.
  destruct (digit_char_spec n) as [-> _]. reflexivity.
Qed.

Lemma append_nil_r (s : string) : s +:+ "" = s.
Proof.
  induction s as [|c s IH]; [reflexivity|]. rewrite append_cons, IH. reflexivity.
Qed.

Lemma digits2_zfill (n : Z) (rest : string) :
  0 <= n < 100 -> PyStr.digits 2 0 (PyStr.zfill 2 n +:+ rest) = Some (n, rest).
Proof. intros H. rewrite (digits_zfill 2 n 0 rest) by (simpl; lia). reflexivity. Qed.

Lemma digits4_zfill (n : Z) (rest : string) :
  0 <= n < 10000 -> PyStr.digits 4 0 (PyStr.zfill 4 n +:+ rest) = Some (n, rest).
Proof. intros H. rewrite (digits_zfill 4 n 0 rest) by (simpl; lia). reflexivity. Qed.

Lemma make_inv y m d H M S us dt :
  DateTime.make y m d H M S us = Some dt ->
  dt = DateTime.mk y m d H M S us
  /\ 1 <= y <= 9999 /\ 1 <= m <= 12 /\ 1 <= d <= 31
  /\ 0 <= H <= 23 /\ 0 <= M <= 59 /\ 0 <= S <= 59 /\ 0 <= us <= 999999.
Proof.
  unfold DateTime.make.
  destruct (_ && _) eqn:Hb; [|discriminate]. intros [= <-].
  repeat (apply andb_true_iff in Hb as [Hb ?]).
  assert (DateTime.days_in_month y m <= 31).
  { unfold DateTime.days_in_month.
    destruct (m =? 2); [destruct (DateTime.is_leap y); lia|].
    destruct (_ || _); lia. }
  repeat split; lia.
Qed.

Lemma split_offset_app (a b : string) :
  all_chars time_char a = true ->
  DateTime.split_offset (a +:+ b)
  = (a +:+ (DateTime.split_offset b).1, (DateTime.split_offset b).2).
Proof.
  induction a as [|c a IH]; intros Ha.
  - rewrite !append_nil. destruct (DateTime.split_offset b); reflexivity.
  - simpl in Ha. apply andb_true_iff in Ha as [Hc Ha].
    rewrite !append_cons. cbn [DateTime.split_offset]. rewrite (IH Ha).
    destruct (Ascii.eqb_spec c "+") as [->|_]; [discriminate|].
    destruct (Ascii.eqb_spec c "-") as [->|_]; [discriminate|].
    reflexivity.
Qed.

(** The time part of [isoformat]. *)
Lemma time_part_chars H M S us :
  all_chars time_char
    (PyStr.zfill 2 H +:+ ":" +:+ PyStr.zfill 2 M +:+ ":" +:+ PyStr.zfill 2 S
     +:+ (if us =? 0 then "" else "." +:+ PyStr.zfill 6 us)) = true.
Proof.
  assert (Hd : forall w n, all_chars time_char (PyStr.zfill w n) = true).
  { intros w n. apply (all_chars_impl PyStr.is_digit); [|apply zfill_digits].
    intros c Hc. unfold time_char. rewrite Hc. reflexivity. }
  rewrite !all_chars_app, !Hd. destruct (us =? 0); [reflexivity|].
  rewrite all_chars_app, Hd. reflexivity.
Qed.

Lemma hh_mm_ss_ff_time_part H M S us :
  0 <= H < 100 -> 0 <= M < 100 -> 0 <= S < 100 -> 0 <= us <= 999999 ->
  DateTime.hh_mm_ss_ff
    (PyStr.zfill 2 H +:+ ":" +:+ PyStr.zfill 2 M +:+ ":" +:+ PyStr.zfill 2 S
     +:+ (if us =? 0 then "" else "." +:+ PyStr.zfill 6 us))
  = Some (H, M, S, us).
Proof.
  intros HH HM HS Hus. unfold DateTime.hh_mm_ss_ff.
  rewrite (digits2_zfill H) by exact HH. cbn [mbind option_bind].
  rewrite append_cons, append_nil.
  rewrite (digits2_zfill M) by exact HM. cbn [mbind option_bind].
  rewrite append_cons, append_nil.
  rewrite (digits2_zfill S) by exact HS. cbn [mbind option_bind].
  destruct (Z.eqb_spec us 0) as [->|Hne]; [reflexivity|].
  rewrite append_cons, append_nil, zfill_length. cbn [Nat.eqb].
  rewrite number_zfill by (simpl; lia). reflexivity.
Qed.

Lemma isoformat_time_suffix H M S us (suffix : string) :
  0 <= H < 100 -> 0 <= M < 100 -> 0 <= S < 100 -> 0 <= us <= 999999 ->
  (suffix = "" \/ suffix = "+00:00") ->
  DateTime.isoformat_time
    ((PyStr.zfill 2 H +:+ ":" +:+ PyStr.zfill 2 M +:+ ":" +:+ PyStr.zfill 2 S
      +:+ (if us =? 0 then "" else "." +:+ PyStr.zfill 6 us)) +:+ suffix)
  = Some (H, M, S, us, if PyStr.is_empty suffix then None else Some 0).
Proof.
  intros HH HM HS Hus Hsuf. unfold DateTime.isoformat_time.
  rewrite split_offset_app by apply time_part_chars.
  destruct Hsuf as [-> | ->]; cbn [DateTime.split_offset fst snd Ascii.eqb];
    simpl (Ascii.eqb _ _); cbn [fst snd];
    rewrite append_nil_r, hh_mm_ss_ff_time_part by assumption; reflexivity.
Qed.

Lemma isoformat_time_nested H M S us (suffix : string) :
  0 <= H < 100 -> 0 <= M < 100 -> 0 <= S < 100 -> 0 <= us <= 999999 ->
  (suffix = "" \/ suffix = "+00:00") ->
  DateTime.isoformat_time
    (PyStr.zfill 2 H +:+ ":" +:+ PyStr.zfill 2 M +:+ ":" +:+ PyStr.zfill 2 S
     +:+ (if us =? 0 then "" else "." +:+ PyStr.zfill 6 us) +:+ suffix)
  = Some (H, M, S, us, if PyStr.is_empty suffix then None else Some 0).
Proof.
  intros HH HM HS Hus Hsuf.
  rewrite <- (isoformat_time_suffix H M S us suffix HH HM HS Hus Hsuf).
  rewrite !append_assoc. reflexivity.
Qed.

Lemma isoformat_suffix y m d H M S us dt (suffix : string) :
  DateTime.make y m d H M S us = Some dt ->
  (suffix = "" \/ suffix = "+00:00") ->
  DateTime.fromisoformat (DateTime.isoformat dt +:+ suffix)
  = Some (dt, if PyStr.is_empty suffix then None else Some 0).
Proof.
  intros Hmk Hsuf.
  destruct (make_inv _ _ _ _ _ _ _ _ Hmk) as (-> & Hy & Hm & Hd & HH & HM & HS & Hus).
  unfold DateTime.isoformat, DateTime.fromisoformat.
  cbn [DateTime.year DateTime.month DateTime.day DateTime.hour DateTime.minute
       DateTime.second DateTime.microsecond].
  rewrite !append_assoc.
  rewrite (digits4_zfill y) by lia. cbn [mbind option_bind].
  rewrite append_cons, append_nil.
  rewrite (digits2_zfill m) by lia. cbn [mbind option_bind].
  rewrite append_cons, append_nil.
  rewrite (digits2_zfill d) by lia. cbn [mbind option_bind].
  rewrite append_cons, append_nil.
  rewrite isoformat_time_nested by (assumption || lia). cbn [mbind option_bind].
  rewrite Hmk. reflexivity.
Qed.

Lemma replace_char_absent (c : ascii) (new s : string) :
  all_chars (fun x => negb (Ascii.eqb x c)) s = true ->
  PyStr.replace (String c "") new s = s.
Proof.
  unfold PyStr.replace. induction s as [|x s IH]; intros Hs; [reflexivity|].
  simpl in Hs. apply andb_true_iff in Hs as [Hx Hs]. apply negb_true_iff in Hx.
  cbn [PyStr.replace_from String.prefix].
  destruct (ascii_dec c x) as [->|_].
  - rewrite Ascii.eqb_refl in Hx. discriminate.
  - rewrite (IH Hs). reflexivity.
Qed.

Lemma isoformat_chars (dt : DateTime.datetime) :
  all_chars iso_char (DateTime.isoformat dt) = true.
Proof.
  assert (Hd : forall w n, all_chars iso_char (PyStr.zfill w n) = true).
  { intros w n. apply (all_chars_impl PyStr.is_digit); [|apply zfill_digits].
    intros c Hc. unfold iso_char, time_char. rewrite Hc. reflexivity. }
  unfold DateTime.isoformat. rewrite !all_chars_app, !Hd.
  destruct (_ =? 0); [reflexivity|]. rewrite all_chars_app, Hd. reflexivity.
Qed.

Lemma iso_char_not_Z (c : ascii) : iso_char c = true -> negb (Ascii.eqb c "Z") = true.
Proof.
  destruct (Ascii.eqb_spec c "Z") as [->|_]; [discriminate|reflexivity].
Qed.

(** X14: a timestamp that the script writes is read back by its
    parsers: for every valid date and time, [fromisoformat] of its
    [isoformat] is that date and time without an offset, and the
    heartbeat and the track parser read the [isoformat] followed by [Z]
    as that date and time. *)
Theorem isoformat_round_trip y m d H M S us dt :
  DateTime.make y m d H M S us = Some dt ->
  DateTime.fromisoformat (DateTime.isoformat dt) = Some (dt, None)
  /\ np_timestamp (DateTime.isoformat dt +:+ "Z") = Some dt
  /\ track_timestamp (DateTime.isoformat dt +:+ "Z") = Some dt.
Proof.
  intros Hmk.
  assert (Hz : PyStr.replace "Z" "+00:00" (DateTime.isoformat dt +:+ "Z")
               = DateTime.isoformat dt +:+ "+00:00").
  { rewrite replace_char_app, replace_char_absent; [reflexivity|].
    apply (all_chars_impl iso_char); [apply iso_char_not_Z|apply isoformat_chars]. }
  split; [|split].
  - rewrite <- (append_nil_r (DateTime.isoformat dt)).
    rewrite (isoformat_suffix _ _ _ _ _ _ _ _ "" Hmk) by (left; reflexivity). reflexivity.
  - unfold np_timestamp. rewrite replace_same by discriminate.
    rewrite Hz, (isoformat_suffix _ _ _ _ _ _ _ _ "+00:00" Hmk) by (right; reflexivity).
    reflexivity.
  - unfold track_timestamp.
    rewrite Hz, (isoformat_suffix _ _ _ _ _ _ _ _ "+00:00" Hmk) by (right; reflexivity).
    reflexivity.
Qed.

Lemma isoformat_round_trip_witness :
  DateTime.make 2024 2 29 23 59 59 123000 = Some (DateTime.mk 2024 2 29 23 59 59 123000)
  /\ DateTime.fromisoformat (DateTime.isoformat (DateTime.mk 2024 2 29 23 59 59 123000))
     = Some (DateTime.mk 2024 2 29 23 59 59 123000, None)
  /\ np_timestamp (DateTime.isoformat (DateTime.mk 2024 2 29 23 59 59 123000) +:+ "Z")
     = Some (DateTime.mk 2024 2 29 23 59 59 123000)
  /\ track_timestamp (DateTime.isoformat (DateTime.mk 2024 2 29 23 59 59 123000) +:+ "Z")
     = Some (DateTime.mk 2024 2 29 23 59 59 123000).
Proof.
  split; [reflexivity|].
  exact (isoformat_round_trip 2024 2 29 23 59 59 123000 _ eq_refl).
Defined.

Lemma substring_skip (a b : string) (k n : nat) :
  substring (String.length a + k) n (a +:+ b) = substring k n b.
Proof.
  induction a as [|c a IH]; [reflexivity|]. rewrite append_cons. simpl. exact IH.
Qed.

Lemma substring_skip_length (a b : string) (j k n : nat) :
  String.length a = j -> substring (j + k) n (a +:+ b) = substring k n b.
Proof. intros <-. apply substring_skip. Qed.

Lemma substring_head_length (a b : string) (n : nat) :
  String.length a = n -> substring 0 n (a +:+ b) = a.
Proof.
  intros <-. induction a as [|c a IH].
  - simpl. destruct b; reflexivity.
  - rewrite append_cons. simpl. rewrite IH. reflexivity.
Qed.

Lemma substring_head (a b : string) :
  substring 0 (String.length a) (a +:+ b) = a.
Proof.
  induction a as [|c a IH].
  - simpl. destruct b; reflexivity.
  - rewrite append_cons. simpl. rewrite IH. reflexivity.
Qed.

Lemma int_zfill2 (n : Z) : 0 <= n <= 23 -> PyStr.int (PyStr.zfill 2 n) = Some n.
Proof.
  intros Hn.
  assert (Hall : Forall (fun k => PyStr.int (PyStr.zfill 2 (Z.of_nat k)) = Some (Z.of_nat k))
                   (seq 0 24)).
  { repeat (constructor; [reflexivity|]). constructor. }
  rewrite Forall_forall in Hall.
  rewrite <- (Z2Nat.id n) by lia. apply Hall. apply elem_of_seq. lia.
Qed.

Lemma isoformat_hour y m d H M S us dt :
  DateTime.make y m d H M S us = Some dt ->
  PyStr.int (PyStr.slice 11 13 (DateTime.isoformat dt +:+ "Z")) = Some H.
Proof.
  intros Hmk.
  destruct (make_inv _ _ _ _ _ _ _ _ Hmk) as (-> & Hy & Hm & Hd & HH & HM & HS & Hus).
  unfold DateTime.isoformat, PyStr.slice.
  cbn [DateTime.year DateTime.month DateTime.day DateTime.hour DateTime.minute
       DateTime.second DateTime.microsecond].
  rewrite !append_assoc.
  rewrite (substring_skip_length (PyStr.zfill 4 y) _ 4 7 2 (zfill_length 4 y)).
  rewrite (substring_skip_length "-" _ 1 6 2 eq_refl).
  rewrite (substring_skip_length (PyStr.zfill 2 m) _ 2 4 2 (zfill_length 2 m)).
  rewrite (substring_skip_length "-" _ 1 3 2 eq_refl).
  rewrite (substring_skip_length (PyStr.zfill 2 d) _ 2 1 2 (zfill_length 2 d)).
  rewrite (substring_skip_length "T" _ 1 0 2 eq_refl).
  rewrite (substring_head_length (PyStr.zfill 2 H) _ 2 (zfill_length 2 H)).
  apply int_zfill2. lia.
Qed.

(** X15: the prefix convention of the timestamps.  For a valid date
    and time, the first 10 characters of its [isoformat] followed by
    [Z] are the date [YYYY-MM-DD], and characters 11 and 12 read as its
    hour; so a play recorded with this timestamp is counted under its
    date in [per_day] and under its hour, a number from 0 to 23, in
    [hourly_activity]. *)
Theorem timestamp_prefixes y m d H M S us dt pu ip song ua st :
  DateTime.make y m d H M S us = Some dt ->
  let t := DateTime.isoformat dt +:+ "Z" in
  PyStr.take 10 t = PyStr.zfill 4 y +:+ "-" +:+ PyStr.zfill 2 m +:+ "-" +:+ PyStr.zfill 2 d
  /\ PyStr.int (PyStr.slice 11 13 t) = Some H
  /\ 0 <= H <= 23
  /\ per_day (add_play pu t ip song ua st) = incr (PyStr.take 10 t) (per_day st)
  /\ hourly_activity (add_play pu t ip song ua st) = incr H (hourly_activity st).
Proof.
  intros Hmk. cbv zeta.
  pose proof (isoformat_hour _ _ _ _ _ _ _ _ Hmk) as Hhour.
  destruct (make_inv _ _ _ _ _ _ _ _ Hmk) as (-> & Hy & Hm & Hd & HH & HM & HS & Hus).
  split; [|split; [exact Hhour|split; [lia|split; [reflexivity|]]]].
  - set (date := PyStr.zfill 4 y +:+ "-" +:+ PyStr.zfill 2 m +:+ "-" +:+ PyStr.zfill 2 d).
    assert (E : exists rest,
               DateTime.isoformat (DateTime.mk y m d H M S us) +:+ "Z" = date +:+ rest).
    { eexists. unfold DateTime.isoformat, date.
      cbn [DateTime.year DateTime.month DateTime.day].
      rewrite !append_assoc. reflexivity. }
    destruct E as [rest ->]. unfold PyStr.take.
    apply substring_head_length. unfold date.
    rewrite !length_append, !zfill_length. reflexivity.
  - cbn [hourly_activity add_play]. unfold count_hour. rewrite Hhour. reflexivity.
Qed.

Lemma timestamp_prefixes_witness :
  DateTime.make 2024 1 1 10 0 5 0 = Some (DateTime.mk 2024 1 1 10 0 5 0)
  /\ PyStr.take 10 (DateTime.isoformat (DateTime.mk 2024 1 1 10 0 5 0) +:+ "Z") = "2024-01-01"
  /\ PyStr.int (PyStr.slice 11 13 (DateTime.isoformat (DateTime.mk 2024 1 1 10 0 5 0) +:+ "Z"))
     = Some 10.
Proof.
  split; [reflexivity|].
  destruct (timestamp_prefixes 2024 1 1 10 0 5 0 _ None "1.2.3.4" "brormand" "" empty_stats
              eq_refl) as (H1 & H2 & _).
  split; [exact H1|exact H2].
Defined.

(** ** The time of an access-log line that parses *)

Lemma strptime_make (s : string) (dt : DateTime.datetime) :
  DateTime.strptime s = Some dt ->
  exists y m d H M S, DateTime.make y m d H M S 0 = Some dt.
Proof.
  unfold DateTime.strptime. intros H.
  destruct (DateTime.cut "/" s) as [[sd r1]|]; [|discriminate]. cbn [mbind option_bind] in H.
  destruct (DateTime.directive_d sd) as [d|]; [|discriminate]. cbn [mbind option_bind] in H.
  destruct (DateTime.cut "/" r1) as [[sb r2]|]; [|discriminate]. cbn [mbind option_bind] in H.
  destruct (DateTime.directive_b sb) as [m|]; [|discriminate]. cbn [mbind option_bind] in H.
  destruct (DateTime.cut ":" r2) as [[sy r3]|]; [|discriminate]. cbn [mbind option_bind] in H.
  destruct (DateTime.directive_Y sy) as [y|]; [|discriminate]. cbn [mbind option_bind] in H.
  destruct (DateTime.cut ":" r3) as [[sH r4]|]; [|discriminate]. cbn [mbind option_bind] in H.
  destruct (DateTime.directive_H sH) as [hh|]; [|discriminate]. cbn [mbind option_bind] in H.
  destruct (DateTime.cut ":" r4) as [[sM sS]|]; [|discriminate]. cbn [mbind option_bind] in H.
  destruct (DateTime.directive_M sM) as [mi|]; [|discriminate]. cbn [mbind option_bind] in H.
  destruct (DateTime.directive_S sS) as [ss|]; [|discriminate]. cbn [mbind option_bind] in H.
  eauto 10.
Qed.

(** X16: when [strptime] accepts the time of an access-log line,
    [parse_time] returns the 20 characters [YYYY-MM-DDTHH:MM:SSZ] of
    that date and time, and characters 11 and 12 of the result read as
    its hour, a number from 0 to 23. *)
Theorem parse_time_of_parsed_time (time_str : string) (dt : DateTime.datetime) :
  DateTime.strptime (hd "" (PyStr.split " " time_str)) = Some dt ->
  parse_time time_str = DateTime.isoformat dt +:+ "Z"
  /\ String.length (parse_time time_str) = 20%nat
  /\ PyStr.int (PyStr.slice 11 13 (parse_time time_str)) = Some (DateTime.hour dt)
  /\ 0 <= DateTime.hour dt <= 23.
Proof.
  intros Hs. unfold parse_time. rewrite Hs.
  destruct (strptime_make _ _ Hs) as (y & m & d & H & M & S & Hmk).
  pose proof (isoformat_hour _ _ _ _ _ _ _ _ Hmk) as Hh.
  destruct (make_inv _ _ _ _ _ _ _ _ Hmk) as (-> & _ & _ & _ & Hr & _).
  split; [reflexivity|]. split; [|split; [exact Hh|exact Hr]].
  unfold DateTime.isoformat.
  cbn [DateTime.year DateTime.month DateTime.day DateTime.hour DateTime.minute
       DateTime.second DateTime.microsecond Z.eqb].
  rewrite !length_append, !zfill_length. reflexivity.
Qed.

Lemma parse_time_of_parsed_time_witness :
  DateTime.strptime (hd "" (PyStr.split " " "29/Feb/2024:23:59:59 +0100"))
    = Some (DateTime.mk 2024 2 29 23 59 59 0)
  /\ parse_time "29/Feb/2024:23:59:59 +0100" = "2024-02-29T23:59:59Z"
  /\ PyStr.int (PyStr.slice 11 13 (parse_time "29/Feb/2024:23:59:59 +0100")) = Some 23.
Proof.
  split; [reflexivity|].
  destruct (parse_time_of_parsed_time "29/Feb/2024:23:59:59 +0100"
              (DateTime.mk 2024 2 29 23 59 59 0) eq_refl) as (H1 & _ & H2 & _).
  split; [exact H1|exact H2].
Defined.

(** ** One session of heartbeats *)




(** ** What every stored play satisfies *)

Lemma fold_left_invariant_in {A B} (P : A -> Prop) (f : A -> B -> A) (l : list B) (a : A) :
  P a -> (forall a b, b ∈ l -> P a -> P (f a b)) -> P (fold_left f l a).
Proof.
  revert a. induction l as [|b l IH]; intros a Ha Hstep; simpl; [exact Ha|].
  apply IH.
  - apply Hstep; [left|exact Ha].
  - intros a' b' Hb'. apply Hstep. right. exact Hb'.
Qed.

Lemma parse_np_line_not_bot (l : string) (e : NpEntry) :
  parse_np_line l = Some e -> bot_search (e_ua e) = false.
Proof.
  unfold parse_np_line.
  destruct (PyStr.split "|" (PyStr.strip l)) as [|p0 [|p1 [|p2 rest]]]; try discriminate.
  destruct (_ || _); [discriminate|].
  destruct (bot_search _) eqn:Hb; [discriminate|].
  destruct (np_timestamp _); [|discriminate].
  intros [= <-]. exact Hb.
Qed.

(** Every candidate of the heartbeat log is a line that the parser
    accepted. *)
Lemma np_entries_parsed (lines : list string) :
  Forall (fun e => exists l, l ∈ lines /\ parse_np_line l = Some e) (np_entries lines).
Proof.
  unfold np_entries.
  apply (fold_left_invariant_in
           (fun st : Sessions * list NpEntry =>
              Forall (fun e => exists l, l ∈ lines /\ parse_np_line l = Some e) st.2)).
  - constructor.
  - intros [sess entries] l Hl H. unfold np_session_step. cbn [fst snd] in *.
    destruct (parse_np_line l) as [e|] eqn:He; [|exact H]. cbn [snd].
    assert (Hadd : Forall (fun e => exists l, l ∈ lines /\ parse_np_line l = Some e)
                     (entries ++ [e])).
    { apply Forall_app. split; [exact H|]. constructor; [eauto|constructor]. }
    destruct (sess !! _); [|exact Hadd].
    destruct (DateTime.total_seconds_gt _ _ _); [exact Hadd|exact H].
Qed.

(** An induction principle for the plays of a run: what holds for
    every play built from a user agent that is not a bot holds for all
    plays after the three passes. *)
Lemma passes_plays_ind (Q : Play -> Prop) env lines np track :
  (forall t ip song ua,
      bot_search ua = false ->
      Q (mkPlay t ip song (PyStr.take 120 ua)
           (device (get_device_info (parse_ua env) ua))
           (browser (get_device_info (parse_ua env) ua))
           (os (get_device_info (parse_ua env) ua)) None None)) ->
  Forall Q (plays (t_stats (passes env lines np track).2)).
Proof.
  intros HQ.
  assert (Hadd : forall t ip song ua st,
             bot_search ua = false -> Forall Q (plays st) ->
             Forall Q (plays (add_play (parse_ua env) t ip song ua st))).
  { intros t ip song ua st Hb Hst. cbn [add_play plays].
    apply Forall_app. split; [exact Hst|]. constructor; [auto|constructor]. }
  unfold passes. cbn [snd].
  assert (Hpr : Forall Q (plays (stats (primary_pass (parse_ua env) lines)))).
  { unfold primary_pass.
    apply (fold_left_invariant (fun s => Forall Q (plays (stats s)))); [constructor|].
    intros s line Hs. unfold primary_step. destruct line as [m|]; [|exact Hs].
    destruct (bot_search (m_ua m)) eqn:Hb; [exact Hs|].
    destruct (String.eqb (m_method m) "GET" && String.eqb (m_path m) "/"
              && (m_status m =? 200));
      (destruct (negb (String.eqb (m_method m) "GET")
                 || negb (is_play_status (m_status m))); [exact Hs|]);
      (destruct (parse_song_name (m_path m)) as [song|]; [|exact Hs]);
      (destruct (PyStr.is_empty song || PyStr.contains "-art" song); [exact Hs|]);
      cbn [stats]; apply Hadd; assumption. }
  set (pr := primary_pass (parse_ua env) lines) in *.
  assert (Hnp : Forall Q (plays (match np with
                   | Some ls => np_pass (parse_ua env) ls (known_of (plays (stats pr)), stats pr)
                   | None => (known_of (plays (stats pr)), stats pr)
                   end).2)).
  { destruct np as [ls|]; [|exact Hpr]. unfold np_pass.
    apply (fold_left_invariant_in (fun s : gset Triple * Stats => Forall Q (plays s.2)));
      [exact Hpr|].
    intros [known s] e He Hs. unfold np_add_step. cbn [fst snd] in *.
    destruct (decide _); [exact Hs|]. cbn [snd]. apply Hadd; [|exact Hs].
    pose proof (np_entries_parsed ls) as Hall. rewrite Forall_forall in Hall.
    destruct (Hall e He) as (l & _ & Hl). apply (parse_np_line_not_bot l e Hl). }
  destruct track as [ls|]; [|exact Hnp]. unfold track_pass.
  apply (fold_left_invariant (fun s => Forall Q (plays (t_stats s)))); [exact Hnp|].
  intros s line Hs. unfold track_step.
  destruct (PyStr.split "|" (PyStr.strip line)) as [|p0 [|p1 [|p2 [|p3 [|p4 rest]]]]];
    try exact Hs.
  destruct (_ || _); [exact Hs|].
  destruct (bot_search _) eqn:Hb; [exact Hs|].
  destruct (negb _).
  - destruct (existsb _ _); [|exact Hs].
    destruct (add_duration_state (np_song (PyStr.strip p3)) (PyStr.strip p4) s) as [_ ->].
    exact Hs.
  - destruct (track_timestamp _); [|exact Hs].
    destruct (decide _); [exact Hs|]. cbn [t_stats]. apply Hadd; assumption.
Qed.

Lemma substring_length (n : nat) (s : string) : (String.length (substring 0 n s) <= n)%nat.
Proof.
  revert s. induction n as [|n IH]; intros [|c s]; simpl; try lia.
  specialize (IH s). lia.
Qed.

Lemma prefix_of_substring (p s : string) (n : nat) :
  String.prefix p (substring 0 n s) = true -> String.prefix p s = true.
Proof.
  revert s n. induction p as [|a p IH]; intros s n H; [apply prefix_empty|].
  destruct n as [|n], s as [|c s]; simpl in H; try discriminate.
  simpl. destruct (ascii_dec a c); [|discriminate]. eapply IH. exact H.
Qed.

Lemma contains_of_substring (tok s : string) (n : nat) :
  PyStr.contains tok (substring 0 n s) = true -> PyStr.contains tok s = true.
Proof.
  revert n. induction s as [|c s IH]; intros n H.
  - destruct n; exact H.
  - destruct n as [|n].
    + change (substring 0 0 (String c s)) with "" in H.
      cbn [PyStr.contains] in H. rewrite orb_false_r in H.
      cbn [PyStr.contains]. destruct tok; [reflexivity|discriminate].
    + change (substring 0 (S n) (String c s)) with (String c (substring 0 n s)) in H.
      cbn [PyStr.contains] in *. apply orb_true_iff in H as [H|H]; apply orb_true_iff.
      * left. apply (prefix_of_substring tok (String c s) (S n)). exact H.
      * right. eapply IH. exact H.
Qed.

Lemma lower_substring (n : nat) (s : string) :
  PyStr.lower (substring 0 n s) = substring 0 n (PyStr.lower s).
Proof.
  revert s. induction n as [|n IH]; intros [|c s]; simpl; try reflexivity.
  rewrite IH. reflexivity.
Qed.

Lemma bot_search_take (n : nat) (ua : string) :
  bot_search ua = false -> bot_search (PyStr.take n ua) = false.
Proof.
  unfold bot_search, PyStr.take. intros H.
  apply not_true_is_false. intros Ht. apply existsb_exists in Ht as (tok & Hin & Hc).
  rewrite lower_substring in Hc. apply contains_of_substring in Hc.
  assert (Hex : existsb (fun tok => PyStr.contains tok (PyStr.lower ua)) BOT_PATTERNS = true)
    by (apply existsb_exists; eauto).
  congruence.
Qed.

Lemma get_device_info_label pu ua : device (get_device_info pu ua) ∈ device_labels.
Proof.
  apply list_elem_of_In. unfold get_device_info, device_labels.
  destruct pu as [parse|]; [|simpl; tauto].
  destruct (PyStr.is_empty ua); [simpl; tauto|].
  destruct (parse ua) as [u|]; [|simpl; tauto]. cbn [device].
  destruct (is_mobile u); [simpl; tauto|]. destruct (is_tablet u); [simpl; tauto|].
  destruct (is_pc u); [simpl; tauto|]. destruct (is_bot u); simpl; tauto.
Qed.

(** X18: every play of [recent_plays] has a user agent of at most 120
    characters in which [BOT_PATTERNS] finds nothing, one of the five
    device labels, and a country and a country code; and
    [recent_plays] holds the first 200 plays of the run, so its length
    is the smaller of 200 and [total_plays]. *)
Theorem recent_plays_are_clean env fs r :
  report_of env fs = Some r ->
  length (Report.recent_plays r) = Nat.min 200 (Report.total_plays r)
  /\ Forall (fun p =>
               (String.length (p_ua p) <= 120)%nat
               /\ bot_search (p_ua p) = false
               /\ p_device p ∈ device_labels
               /\ p_country p <> None /\ p_cc p <> None)
       (Report.recent_plays r).
Proof.
  intros Hr. apply report_of_inv in Hr as (lines & cache & pr & tr & _ & Hp & _ & ->).
  unfold build_report. cbn [Report.recent_plays Report.total_plays].
  split; [apply length_take|].
  pose proof (passes_plays_ind
                (fun p => (String.length (p_ua p) <= 120)%nat
                          /\ bot_search (p_ua p) = false
                          /\ p_device p ∈ device_labels)
                env lines (np_log_file fs) (track_log_file fs)) as Hall.
  rewrite Hp in Hall. cbn [snd] in Hall.
  assert (Hq : Forall (fun p => (String.length (p_ua p) <= 120)%nat
                                /\ bot_search (p_ua p) = false
                                /\ p_device p ∈ device_labels) (plays (t_stats tr))).
  { apply Hall. intros t ip song ua Hb. cbn [p_ua p_device].
    split; [apply substring_length|]. split; [apply bot_search_take; exact Hb|].
    apply get_device_info_label. }
  rewrite Forall_forall in Hq. apply Forall_forall. intros p Hin.
  apply (subseteq_take 200) in Hin.
  apply final_plays_from in Hin as (p0 & Hp0 & ->).
  destruct (Hq p0 Hp0) as (H1 & H2 & H3).
  cbn [with_country p_ua p_device p_country p_cc].
  repeat split; try assumption; discriminate.
Qed.

Lemma recent_plays_are_clean_witness :
  exists r,
    report_of offline same_minute_twice = Some r
    /\ length (Report.recent_plays r) = Nat.min 200 (Report.total_plays r)
    /\ Forall (fun p =>
                 (String.length (p_ua p) <= 120)%nat
                 /\ bot_search (p_ua p) = false
                 /\ p_device p ∈ device_labels
                 /\ p_country p <> None /\ p_cc p <> None)
         (Report.recent_plays r).
Proof.
  eexists. split; [vm_compute; reflexivity|].
  apply (recent_plays_are_clean offline same_minute_twice). vm_compute. reflexivity.
Defined.

(** ** Device labels *)

Lemma incr_keys_in {K} `{EqDecision K} (P : K -> Prop) (k : K) (c : list (K * nat)) :
  P k -> Forall (fun kv => P kv.1) c -> Forall (fun kv => P kv.1) (incr k c).
Proof.
  intros Hk. unfold incr. induction c as [|[k' v] c IH]; intros H; simpl.
  - constructor; [exact Hk|constructor].
  - apply Forall_cons in H as [Hv Hc].
    destruct (decide (k = k')); constructor; auto.
Qed.

(** X19: the keys of [per_device] are device labels, so the table,
    which is not capped, has at most five entries. *)
Theorem per_device_labels env fs r :
  report_of env fs = Some r ->
  Forall (fun kv => kv.1 ∈ device_labels) (Report.per_device r)
  /\ (length (Report.per_device r) <= 5)%nat.
Proof.
  intros Hr. apply report_of_inv in Hr as (lines & cache & pr & tr & _ & Hp & _ & ->).
  unfold build_report. cbn [Report.per_device].
  assert (Hnd : NoDup (map fst (sorted_desc by_count (per_device (t_stats tr))))).
  { pose proof (passes_well_counted env lines (np_log_file fs) (track_log_file fs)) as Hw.
    rewrite Hp in Hw. cbn [snd] in Hw. unfold well_counted in Hw. cbv zeta in Hw.
    destruct Hw as (_ & _ & _ & _ & _ & (_ & V2 & _) & _).
    apply (NoDup_keys_perm _ _ (sorted_desc_perm by_count _)). exact V2. }
  assert (Hl : Forall (fun kv : string * nat => kv.1 ∈ device_labels)
                 (sorted_desc by_count (per_device (t_stats tr)))).
  { rewrite sorted_desc_perm.
    pose proof (passes_stats_ind
                  (fun st => Forall (fun kv : string * nat => kv.1 ∈ device_labels)
                               (per_device st))
                  env lines (np_log_file fs) (track_log_file fs)) as H.
    rewrite Hp in H. apply H.
    - constructor.
    - intros t ip song ua st Hst. cbn [add_play per_device].
      apply (incr_keys_in (fun k => k ∈ device_labels));
        [apply get_device_info_label|exact Hst]. }
  split; [exact Hl|].
  rewrite <- (length_map fst).
  change 5%nat with (length device_labels).
  apply submseteq_length, NoDup_submseteq; [exact Hnd|].
  intros k Hk. apply list_elem_of_fmap in Hk as (kv & -> & Hkv).
  rewrite Forall_forall in Hl. auto.
Qed.

Lemma per_device_labels_witness :
  exists r,
    report_of offline same_minute_twice = Some r
    /\ Forall (fun kv => kv.1 ∈ device_labels) (Report.per_device r)
    /\ (length (Report.per_device r) <= 5)%nat.
Proof.
  eexists. split; [vm_compute; reflexivity|].
  apply (per_device_labels offline same_minute_twice). vm_compute. reflexivity.
Defined.

(** ** The order of the effects *)






(** ** The report and the saved cache *)

Lemma main_events env fs lines :
  log_file fs = Some lines ->
  let pt := passes env lines (np_log_file fs) (track_log_file fs) in
  requested (main env fs).2
  = requested (resolve env pt.1 pt.2 (load_geo_cache fs).1).2.
Proof.
  intros Hlog. cbv zeta. unfold main. rewrite Hlog.
  destruct (passes env lines (np_log_file fs) (track_log_file fs)) as [pr tr].
  cbn [fst snd].
  assert (Hload : requested (load_geo_cache fs).2 = []).
  { unfold load_geo_cache. destruct (geo_cache_file fs) as [[c|]|]; reflexivity. }
  destruct (load_geo_cache fs) as [cache0 ev0]. cbn [fst snd] in *.
  destruct (resolve env pr tr cache0) as [cache ev]. cbn [snd].
  rewrite !requested_app, Hload.
  destruct (np_log_file fs), (track_log_file fs); cbn; rewrite app_nil_r; reflexivity.
Qed.

Lemma run_inv env fs r (cache : GeoCache) :
  report_of env fs = Some r ->
  geo_cache_file (main env fs).1 = Some (Some cache) ->
  exists lines pr tr,
    log_file fs = Some lines
    /\ passes env lines (np_log_file fs) (track_log_file fs) = (pr, tr)
    /\ cache = (resolve env pr tr (load_geo_cache fs).1).1
    /\ r = build_report (utcnow env) cache pr tr.
Proof.
  intros Hr Hc.
  apply report_of_inv in Hr as (lines & cache' & pr & tr & Hlog & Hp & Hcache & ->).
  pose proof (main_files env fs lines Hlog) as Hm. cbv zeta in Hm.
  rewrite Hp in Hm. cbn [fst snd] in Hm. rewrite Hm in Hc. cbn [geo_cache_file] in Hc.
  assert (cache = cache') by congruence. subst cache'.
  exists lines, pr, tr. repeat split; try assumption; rewrite H; reflexivity.
Qed.



(** ** Private listeners *)

Lemma passes_ips_known env lines np track :
  Forall (fun p => p_ip p ∈ all_ips (t_stats (passes env lines np track).2))
    (plays (t_stats (passes env lines np track).2)).
Proof.
  apply (passes_stats_ind (fun st => Forall (fun p => p_ip p ∈ all_ips st) (plays st))).
  - constructor.
  - intros t ip song ua st Hst. cbn [add_play plays all_ips].
    apply Forall_app. split.
    + eapply Forall_impl; [exact Hst|]. intros p Hp. simpl in Hp.
      apply elem_of_union. right. exact Hp.
    + constructor; [|constructor]. cbn [p_ip]. apply elem_of_union. left.
      apply elem_of_singleton. reflexivity.
Qed.

(** X22: in a run that makes at least one request, where the
    addresses are iterated in an order that misses none, every private
    address that has a play has an entry in the cache that is saved,
    and the report shows the plays of that address with the country
    and the code of this entry. *)
Theorem private_listeners_resolved env fs r (cache : GeoCache) :
  (forall (s : gset string) (x : string), x ∈ s -> x ∈ set_order env s) ->
  report_of env fs = Some r ->
  geo_cache_file (main env fs).1 = Some (Some cache) ->
  requested (main env fs).2 <> [] ->
  Forall (fun p =>
            is_private_ip (p_ip p) = true ->
            exists e, cache !! p_ip p = Some e
                      /\ p_country p = Some (default "Ukendt" (country e))
                      /\ p_cc p = Some (default "" (code e)))
    (Report.recent_plays r).
Proof.
  intros Horder Hr Hc Hreq.
  destruct (run_inv env fs r cache Hr Hc) as (lines & pr & tr & Hlog & Hp & Hcache & ->).
  rewrite (main_events env fs lines Hlog) in Hreq. cbv zeta in Hreq.
  pose proof (passes_ips_known env lines (np_log_file fs) (track_log_file fs)) as Hips.
  rewrite Hp in Hreq, Hips. cbn [fst snd] in *.
  unfold resolve in Hcache, Hreq.
  set (ips := set_order env (all_ips (t_stats tr) ∪ unique_page_ips pr)) in *.
  rewrite Forall_forall in Hips. apply Forall_forall. intros p Hin Hpriv.
  unfold build_report in Hin. cbn [Report.recent_plays] in Hin.
  apply (subseteq_take 200) in Hin.
  apply final_plays_from in Hin as (p0 & Hp0 & ->).
  cbn [with_country p_ip p_country p_cc] in *.
  assert (Hin : p_ip p0 ∈ ips).
  { apply Horder, elem_of_union. left. apply Hips. exact Hp0. }
  assert (Hmark : exists e, cache !! p_ip p0 = Some e).
  { rewrite Hcache. unfold lookup_countries in *.
    destruct (new_ips ips (load_geo_cache fs).1) as [|x xs]; [contradiction|].
    destruct (run_batches (service env) 0 (batches (x :: xs)) (load_geo_cache fs).1)
      as [c ev].
    cbn [fst]. rewrite (mark_private_marks ips c (p_ip p0) Hin Hpriv). eauto. }
  destruct Hmark as [e He]. exists e. split; [exact He|].
  unfold country_of, code_of. rewrite He. split; reflexivity.
Qed.

Lemma private_listeners_resolved_witness :
  (forall (s : gset string) (x : string), x ∈ s -> x ∈ set_order offline s)
  /\ requested (main offline public_and_private).2 <> []
  /\ exists r,
      report_of offline public_and_private = Some r
      /\ Forall (fun p =>
                   is_private_ip (p_ip p) = true ->
                   exists e, (<["192.168.1.5" := local_entry]> ∅ : GeoCache) !! p_ip p = Some e
                             /\ p_country p = Some (default "Ukendt" (country e))
                             /\ p_cc p = Some (default "" (code e)))
           (Report.recent_plays r).
Proof.
  assert (H1 : forall (s : gset string) (x : string), x ∈ s -> x ∈ set_order offline s)
    by (intros s x Hx; apply elem_of_elements; exact Hx).
  assert (H2 : requested (main offline public_and_private).2 <> [])
    by (vm_compute; discriminate).
  split; [exact H1|]. split; [exact H2|].
  eexists. split; [vm_compute; reflexivity|].
  refine (private_listeners_resolved offline public_and_private _ _ H1 _ _ H2).
  - vm_compute. reflexivity.
  - vm_compute. reflexivity.
Defined.
